(** * input-deno: the interactive input loop of [src/index.ts]

    A shallow embedding of the [InputLoop] class and the proofs of its
    documented behaviour.

    Conventions of the embedding.
    - A JavaScript string is kept as the bytes of its UTF-8 encoding, a
      [string]; the [TextDecoder] of [read] turns the bytes of the buffer
      into such a text, as the UTF-8 decoder of the platform does.
    - A JavaScript [number] is an integer [Z]: the values a menu index, a
      count of spaces or a divider length take (fractions, [NaN] and the
      infinities are left out).  [String_] renders it in decimal, as
      [String(n)] does for an integer below 10^21 in size.
    - The engine builds no string longer than [String_max_length] UTF-16
      code units: [repeat], a template literal and a concatenation throw a
      [RangeError] where their result would be longer.
    - An optional argument or field is an [option]; [None] is [undefined].
    - A call is a function of the state of the object and of its two
      streams, which returns how the promise settles and the state after. *)

From Stdlib Require Import Bool List ZArith Lia Ascii String.
From Stdlib Require Import Decimal DecimalString DecimalPos DecimalZ.
Import ListNotations.

Local Open Scope string_scope.

(** ** JavaScript values *)

Module Js.

(** The two line-terminator characters. *)
Definition LF : ascii := "010"%char.
Definition CR : ascii := "013"%char.

(** A [string | number] argument. *)
Inductive Value : Type :=
| VString (s : string)
| VNumber (n : Z).

(** [String(n)] on an integer. *)
Definition String_ (n : Z) : string := NilZero.string_of_int (Z.to_int n).

(** Truthiness, as [if (x)], [x && ...], [x || ...] and [x ? ... : ...] test
    it. *)
Definition truthy_string (s : string) : bool :=
  match s with EmptyString => false | _ => true end.

Definition truthy_number (n : Z) : bool := negb (n =? 0)%Z.

Definition truthy_value (v : Value) : bool :=
  match v with
  | VString s => truthy_string s
  | VNumber n => truthy_number n
  end.

Definition truthy {A : Type} (t : A -> bool) (o : option A) : bool :=
  match o with Some a => t a | None => false end.

Definition truthy_bool (o : option bool) : bool := truthy (fun b => b) o.

(** [o ?? d] *)
Definition nullish {A : Type} (o : option A) (d : A) : A :=
  match o with Some a => a | None => d end.

(** [o || undefined] *)
Definition or_undefined {A : Type} (t : A -> bool) (o : option A) : option A :=
  if truthy t o then o else None.

(** [s.slice(n)] *)
Fixpoint drop (n : nat) (s : string) : string :=
  match n, s with
  | O, _ => s
  | S _, EmptyString => EmptyString
  | S n', String _ s' => drop n' s'
  end.

(** [s.replace(pattern, replacement)] with a string pattern: the first
    occurrence only, wherever it is. *)
Fixpoint replace (pattern replacement s : string) : string :=
  if prefix pattern s then replacement ++ drop (length pattern) s
  else match s with
       | EmptyString => EmptyString
       | String a s' => String a (replace pattern replacement s')
       end.

(** [s.repeat(count)] for a count that is not negative. *)
Fixpoint repeat_string (s : string) (count : nat) : string :=
  match count with
  | O => EmptyString
  | S c => s ++ repeat_string s c
  end.

(** How a template literal renders a string that may be [undefined]. *)
Definition template (o : option string) : string := nullish o "undefined".

(** [array.forEach((x, index) => ...)] and [array.map((x, index) => ...)],
    with the index of the first element as an argument. *)
Fixpoint map_index {A B : Type} (f : A -> nat -> B) (index : nat) (l : list A)
  : list B :=
  match l with
  | [] => []
  | x :: l' => f x index :: map_index f (S index) l'
  end.

End Js.
Import Js.

(** ** The types of [types.ts] *)

(** Modelled from the spec: the enumeration [ACTIONS] of [types.ts], which
    is not among the sources.  It names the two kinds of prompt; both of its
    members are truthy, since [repeat] replays either kind. *)
Inductive ACTIONS : Type := CHOOSE | QUESTION.

(** Modelled from the spec: [if (action)] holds for either member. *)
Definition truthy_action (_ : ACTIONS) : bool := true.

(** Modelled from the spec: the interface [Preferences] of [types.ts], with
    the fields that [choose] destructures. *)
Record Preferences : Type := mkPreferences {
  choice : option Value;
  lastOptionClose : option bool;
  displayInline : option bool;
  inlineSpacing : option Z;
  inlineSeparator : option string;
  indexStyle : option (list string);
  dividerTop : option bool;
  dividerBottom : option bool;
  dividerChar : option string;
  dividerLength : option Z;
  dividerPadding : option bool
}.

(** [{}], the default of the parameter [preferences]. *)
Definition no_preferences : Preferences :=
  mkPreferences None None None None None None None None None None None.

(** [{ lastOptionClose, choice }], the object [repeat] builds. *)
Definition replay_preferences (loc : option bool) (value : option Value)
  : Preferences :=
  mkPreferences value loc None None None None None None None None None.

(** ** History *)

(** Modelled from the spec: the record that [History] of [history.ts] (not
    among the sources) keeps.  [save(argument, kind, lastOptionClose?,
    includeNewline?)] overwrites it; a Choose record holds the options and
    the closing flag, a Question record the text and the newline flag. *)
Inductive PromptRecord : Type :=
| Choose (argument : list string) (lastOptionClose : bool)
| Question (argument : string) (includeNewline : bool).

Module History.

(** Modelled from the spec: the stored record, [None] until a prompt is
    saved. *)
Definition t : Type := option PromptRecord.

(** Modelled from the spec: nothing is stored in a new history. *)
Definition empty : t := None.

(** Modelled from the spec: [save] overwrites the stored record. *)
Definition save (r : PromptRecord) (_ : t) : t := Some r.

(** Modelled from the spec: [retrieve] returns the current record. *)
Definition retrieve (h : t) : option PromptRecord := h.

(** Modelled from the spec: [retrieve().action], the kind of the stored
    record, [undefined] when there is none. *)
Definition action (h : t) : option ACTIONS :=
  match retrieve h with
  | Some (Choose _ _) => Some CHOOSE
  | Some (Question _ _) => Some QUESTION
  | None => None
  end.

End History.

(** ** The state *)

(** The fields of the object: the read buffer, the flag and the history.
    (The printer [out] holds no state that a call changes.) *)
Record InputLoop : Type := mkInputLoop {
  buf : string;
  done : bool;
  history : History.t
}.

(** The object and its surroundings: the chunks that standard input will
    deliver (none left: the stream is closed), the writes made to standard
    output, and the number of reads of standard input made so far. *)
Record State : Type := mkState {
  self : InputLoop;
  stdin : list string;
  stdout : list string;
  reads : nat
}.

Definition set_self (f : InputLoop -> InputLoop) (st : State) : State :=
  mkState (f (self st)) (stdin st) (stdout st) (reads st).

Definition set_done (b : bool) (o : InputLoop) : InputLoop :=
  mkInputLoop (buf o) b (history o).

Definition set_history (h : History.t) (o : InputLoop) : InputLoop :=
  mkInputLoop (buf o) (done o) h.

Definition set_buf (b : string) (o : InputLoop) : InputLoop :=
  mkInputLoop b (done o) (history o).

(** [new Uint8Array(1024)] *)
Definition buf_size : nat := 1024.

Definition new_buf : string := repeat_string (String Ascii.zero "") buf_size.

(** [new InputLoop()] *)
Definition new_InputLoop : InputLoop := mkInputLoop new_buf false History.empty.

Definition initial (input : list string) : State :=
  mkState new_InputLoop input [] 0.

(** ** Promises *)

(** Why a promise is rejected: [read] rejects at the end of the input, and
    the engine throws a [RangeError] for a negative count of
    [String.prototype.repeat] and for a string longer than it builds. *)
Inductive Failure : Type := EndOfInput | RangeError.

(** A call: how its promise settles, and the state it leaves. *)
Definition Promise (A : Type) : Type := State -> (Failure + A) * State.

Definition resolve {A : Type} (a : A) : Promise A := fun st => (inr a, st).

Definition reject {A : Type} (f : Failure) : Promise A := fun st => (inl f, st).

Definition bind {A B : Type} (c : Promise A) (k : A -> Promise B) : Promise B :=
  fun st =>
    match c st with
    | (inr a, st') => k a st'
    | (inl f, st') => (inl f, st')
    end.

(** A statement that cannot fail. *)
Definition exec (f : State -> State) : Promise unit := fun st => (inr tt, f st).

Definition when (b : bool) (c : Promise unit) : Promise unit :=
  if b then c else resolve tt.

Notation "x <- c ;; k" := (bind c (fun x => k))
  (at level 61, c at next level, right associativity).
Notation "c ;; k" := (bind c (fun _ => k))
  (at level 61, right associativity).

(** ** Printer *)

Module Printer.

(** Modelled from the spec: a write to standard output. *)
Definition write (text : string) (st : State) : State :=
  mkState (self st) (stdin st) (stdout st ++ [text]) (reads st).

(** Modelled from the spec: [print(text, appendNewline)] of [printer.ts]
    (not among the sources) writes the text, followed by a line break when
    asked. *)
Definition print (text : string) (appendNewline : bool) : State -> State :=
  write (if appendNewline then text ++ String LF "" else text).

(** Modelled from the spec: [newline()] writes one line break. *)
Definition newline : State -> State := write (String LF "").

(** Modelled from the spec: [divider(length, char)] writes a line of the
    character repeated; 30 and [-] where the argument is omitted. *)
Definition divider (length : option Z) (char : option string)
  : State -> State :=
  print (repeat_string (nullish char "-") (Z.to_nat (nullish length 30%Z)))
        true.

End Printer.

(** ** Standard input *)

(** [Deno.stdin.read(buf)]: [null] when the stream is closed; otherwise the
    next chunk, as far as the buffer holds it, is copied to the front of the
    buffer and its size is returned; what did not fit stays in the stream. *)
Definition Deno_stdin_read (st : State) : option nat * State :=
  match stdin st with
  | [] => (None, mkState (self st) [] (stdout st) (S (reads st)))
  | chunk :: rest =>
      let b := buf (self st) in
      let n := Nat.min (length chunk) (length b) in
      let left := drop n chunk in
      (Some n,
       mkState (set_buf (substring 0 n chunk ++ drop n b) (self st))
               (if truthy_string left then left :: rest else rest)
               (stdout st) (S (reads st)))
  end.

(** [new TextDecoder()]: the UTF-8 decoder of the platform, which is not
    fatal and does not ignore the byte order mark.  Bytes and code points are
    integers. *)
Module TextDecoder.

Definition byte (a : ascii) : Z := Z.of_N (N_of_ascii a).

Definition ascii_of (b : Z) : ascii := ascii_of_N (Z.to_N b).

(** The replacement character, and the byte order mark. *)
Definition replacement : Z := 0xFFFD.

Definition byte_order_mark : Z := 0xFEFF.

(** The state of the decoder between two bytes: the code point so far, the
    continuation bytes seen and needed, and the bounds of the next one. *)
Record state : Type := mkstate {
  code_point : Z;
  bytes_seen : nat;
  bytes_needed : nat;
  lower_boundary : Z;
  upper_boundary : Z
}.

Definition start : state := mkstate 0 0 0 0x80 0xBF.

(** A byte read when no continuation byte is needed: the code points it
    gives, and the state after it. *)
Definition lead (b : Z) : list Z * state :=
  if (b <=? 0x7F)%Z then ([b], start)
  else if ((0xC2 <=? b) && (b <=? 0xDF))%Z
  then ([], mkstate (Z.land b 0x1F) 0 1 0x80 0xBF)
  else if ((0xE0 <=? b) && (b <=? 0xEF))%Z
  then ([], mkstate (Z.land b 0xF) 0 2
                    (if (b =? 0xE0)%Z then 0xA0 else 0x80)
                    (if (b =? 0xED)%Z then 0x9F else 0xBF))
  else if ((0xF0 <=? b) && (b <=? 0xF4))%Z
  then ([], mkstate (Z.land b 0x7) 0 3
                    (if (b =? 0xF0)%Z then 0x90 else 0x80)
                    (if (b =? 0xF4)%Z then 0x8F else 0xBF))
  else ([replacement], start).

(** The code points of a sequence of bytes.  A byte that cannot continue
    the sequence under way gives the replacement character and is then read
    again as the first of a sequence; so does a sequence cut short by the
    end of the bytes. *)
Fixpoint code_points (st : state) (bytes : string) : list Z :=
  match bytes with
  | EmptyString =>
      match bytes_needed st with O => [] | S _ => [replacement] end
  | String a bytes' =>
      let b := byte a in
      match bytes_needed st with
      | O => let (out, st') := lead b in out ++ code_points st' bytes'
      | S _ =>
          if ((b <? lower_boundary st) || (upper_boundary st <? b))%Z
          then let (out, st') := lead b in
               replacement :: out ++ code_points st' bytes'
          else
            let cp := Z.lor (Z.shiftl (code_point st) 6) (Z.land b 0x3F) in
            if (S (bytes_seen st) =? bytes_needed st)%nat
            then cp :: code_points start bytes'
            else code_points
                   (mkstate cp (S (bytes_seen st)) (bytes_needed st) 0x80 0xBF)
                   bytes'
      end
  end.

(** A leading byte order mark is not part of the text. *)
Definition strip_byte_order_mark (cps : list Z) : list Z :=
  match cps with
  | cp :: cps' => if (cp =? byte_order_mark)%Z then cps' else cps
  | [] => []
  end.

(** The bytes of a code point in UTF-8. *)
Definition continuation (cp : Z) (shift : Z) : ascii :=
  ascii_of (Z.lor 0x80 (Z.land (Z.shiftr cp shift) 0x3F)).

Definition encode (cp : Z) : string :=
  if (cp <? 0x80)%Z then String (ascii_of cp) ""
  else if (cp <? 0x800)%Z
  then String (ascii_of (Z.lor 0xC0 (Z.shiftr cp 6)))
              (String (continuation cp 0) "")
  else if (cp <? 0x10000)%Z
  then String (ascii_of (Z.lor 0xE0 (Z.shiftr cp 12)))
              (String (continuation cp 6) (String (continuation cp 0) ""))
  else String (ascii_of (Z.lor 0xF0 (Z.shiftr cp 18)))
              (String (continuation cp 12)
                      (String (continuation cp 6)
                              (String (continuation cp 0) ""))).

Fixpoint text (cps : list Z) : string :=
  match cps with
  | [] => EmptyString
  | cp :: cps' => encode cp ++ text cps'
  end.

(** [decode(bytes)] *)
Definition decode (bytes : string) : string :=
  text (strip_byte_order_mark (code_points start bytes)).

End TextDecoder.

(** [new TextDecoder().decode(bytes)] *)
Definition decode (bytes : string) : string := TextDecoder.decode bytes.

(** [buf.subarray(0, n)] *)
Definition subarray (n : nat) (b : string) : string := substring 0 n b.

(** ** The methods of [InputLoop] *)

Definition coerceChoice (value : Value) : string :=
  match value with
  | VNumber n => String_ n
  | VString s => s
  end.

Definition promisify (value : string) : Promise string := resolve value.

Definition cleanInput (value : option string) : string :=
  nullish
    (option_map
       (fun v => replace (String CR "") "" (replace (String LF "") "" v))
       value)
    "".

Definition close : State -> State := set_self (set_done true).

Definition read : Promise string := fun st =>
  let (n, st') := Deno_stdin_read st in
  match n with
  | Some (S _ as n) =>
      (inr (cleanInput (Some (decode (subarray n (buf (self st')))))), st')
  | _ => (inl EndOfInput, st')
  end.

(** The longest string the engine builds: [String::kMaxLength] of V8, the
    engine of Deno, on a 64-bit build. *)
Definition String_max_length : Z := 2 ^ 29 - 24.

(** [s.length]: the UTF-16 code units of the text, one for each character
    of one to three bytes and two for each character of four. *)
Fixpoint js_length (s : string) : Z :=
  match s with
  | EmptyString => 0
  | String a s' =>
      let b := TextDecoder.byte a in
      (if ((0x80 <=? b) && (b <=? 0xBF))%Z then 0
       else if (0xF0 <=? b)%Z then 2 else 1)
      + js_length s'
  end.

(** Whether the engine builds the string. *)
Definition fits (s : string) : bool := (js_length s <=? String_max_length)%Z.

(** A template literal, or a concatenation: a [RangeError] when the result
    would be longer than the longest string. *)
Definition template_literal (s : string) : Promise string :=
  if fits s then resolve s else reject RangeError.

(** Whether [s.repeat(count)] throws: the count is negative, or the result
    would be longer than the longest string. *)
Definition repeat_throws (s : string) (count : Z) : bool :=
  ((count <? 0) || (String_max_length <? count * js_length s))%Z.

(** [s.repeat(count)]: a [RangeError] where it throws. *)
Definition repeat_count (s : string) (count : Z) : Promise string :=
  if repeat_throws s count then reject RangeError
  else resolve (repeat_string s (Z.to_nat count)).

(** [array.forEach((x, index) => ...)]: a callback that throws ends it. *)
Fixpoint forEach {A : Type} (f : A -> nat -> Promise unit) (index : nat)
         (l : list A) : Promise unit :=
  match l with
  | [] => resolve tt
  | x :: l' => f x index ;; forEach f (S index) l'
  end.

Definition choose (options : list string) (preferences : Preferences)
  : Promise (list bool) :=
  let indexStyleLeft :=
    match indexStyle preferences with
    | Some style => template (nth_error style 0)
    | None => "["
    end in
  let indexStyleRight :=
    match indexStyle preferences with
    | Some style => template (nth_error style 1)
    | None => "]"
    end in
  let length_ := or_undefined truthy_number (dividerLength preferences) in
  let char := or_undefined truthy_string (dividerChar preferences) in
  exec Printer.newline ;;
  when (truthy_bool (dividerTop preferences))
       (exec (Printer.divider length_ char)) ;;
  when (truthy_bool (dividerPadding preferences)) (exec Printer.newline) ;;
  separator <-
    (if truthy truthy_string (inlineSeparator preferences)
     then template_literal
            (" " ++ template (inlineSeparator preferences) ++ " ")
     else repeat_count " "
            (nullish (or_undefined truthy_number (inlineSpacing preferences))
                     2%Z)) ;;
  forEach
    (fun option index =>
       let label :=
         indexStyleLeft ++ String_ (Z.of_nat index) ++ indexStyleRight
         ++ " " ++ option in
       if truthy_bool (displayInline preferences)
       then text <- template_literal (label ++ separator) ;;
            exec (Printer.print text false)
       else text <- template_literal label ;;
            exec (Printer.print text true))
    0 options ;;
  when (truthy_bool (dividerBottom preferences))
       (exec Printer.newline ;;
        when (truthy_bool (dividerPadding preferences))
             (exec Printer.newline) ;;
        exec (Printer.divider length_ char)) ;;
  result <-
    match choice preferences with
    | Some c => resolve (cleanInput (Some (coerceChoice c)))
    | None => read
    end ;;
  exec (set_self (fun o =>
          set_history
            (History.save
               (Choose options (nullish (lastOptionClose preferences) false))
               (history o))
            o)) ;;
  when (truthy_bool (lastOptionClose preferences)
        && (result =? String_ (Z.of_nat (List.length options) - 1))%string)
       (exec close) ;;
  resolve (map_index
             (fun _ index => (result =? String_ (Z.of_nat index))%string)
             0 options).

Definition question (question : string) (includeNewline : option bool)
           (value : option Value) : Promise string :=
  exec (Printer.print question (nullish includeNewline true)) ;;
  exec (set_self (fun o =>
          set_history
            (History.save (Question question (nullish includeNewline true))
                          (history o))
            o)) ;;
  match value with
  | Some v =>
      if truthy_value v then promisify (cleanInput (Some (coerceChoice v)))
      else read
  | None => read
  end.

(** What [repeat] returns: the result of the prompt it replayed, or
    [undefined]. *)
Inductive Replayed : Type :=
| Chosen (selected : list bool)
| Answered (answer : string)
| Undefined.

Definition repeat (value : option Value) : Promise Replayed := fun st =>
  let h := history (self st) in
  if truthy truthy_action (History.action h) then
    match History.action h, History.retrieve h with
    | Some CHOOSE, Some (Choose argument loc) =>
        (selected <- choose argument (replay_preferences (Some loc) value) ;;
         resolve (Chosen selected)) st
    | Some QUESTION, Some (Question argument includeNewline) =>
        (answer <- question argument (Some includeNewline) value ;;
         resolve (Answered answer)) st
    | _, _ => (inr Undefined, st)
    end
  else (inr Undefined, st).

(** ** Notions used in the statements *)

(** Whether a character occurs in a string. *)
Fixpoint occurs (c : ascii) (s : string) : bool :=
  match s with
  | EmptyString => false
  | String a s' => (a =? c)%char || occurs c s'
  end.

(** A text with no line-terminator character in it. *)
Definition plain (s : string) : Prop :=
  occurs LF s = false /\ occurs CR s = false.

(** How a line ends: with a line feed, with a carriage return and a line
    feed, with a carriage return, or (the last line of a stream) with
    nothing. *)
Definition terminator (t : string) : Prop :=
  t = String LF "" \/ t = String CR (String LF "") \/ t = String CR ""
  \/ t = "".

(** The spec's words for what [read] does to the text: its trailing
    line-terminator characters stripped, the rest unchanged. *)
Fixpoint strip_trailing_terminators (s : string) : string :=
  match s with
  | EmptyString => EmptyString
  | String a s' =>
      match strip_trailing_terminators s' with
      | EmptyString =>
          if ((a =? LF) || (a =? CR))%char then EmptyString else String a ""
      | rest => String a rest
      end
  end.

(** The separator that [choose] builds, or the failure of building it. *)
Definition separator (preferences : Preferences) : Failure + string :=
  if truthy truthy_string (inlineSeparator preferences)
  then
    let sep := " " ++ template (inlineSeparator preferences) ++ " " in
    if fits sep then inr sep else inl RangeError
  else
    let count :=
      nullish (or_undefined truthy_number (inlineSpacing preferences)) 2%Z in
    if repeat_throws " " count then inl RangeError
    else inr (repeat_string " " (Z.to_nat count)).

(** A choice that is the index [i]: the number, or its decimal string. *)
Definition is_index (i : nat) (c : Value) : Prop :=
  c = VNumber (Z.of_nat i) \/ c = VString (String_ (Z.of_nat i)).

(** Two states that differ by what was written to standard output only. *)
Definition printed (st st' : State) : Prop :=
  self st' = self st /\ stdin st' = stdin st /\ reads st' = reads st.

(** The underlying read yields no data: the stream is closed, or the read
    returns no byte. *)
Definition no_data (st : State) : Prop :=
  fst (Deno_stdin_read st) = None \/ fst (Deno_stdin_read st) = Some 0.

(** The calls of the public interface, and the state they leave. *)
Inductive Call : Type :=
| CallChoose (options : list string) (preferences : Preferences)
| CallQuestion (text : string) (includeNewline : option bool)
               (value : option Value)
| CallRepeat (value : option Value)
| CallRead
| CallClose.

Definition call (c : Call) (st : State) : State :=
  match c with
  | CallChoose options preferences => snd (choose options preferences st)
  | CallQuestion text includeNewline value =>
      snd (question text includeNewline value st)
  | CallRepeat value => snd (repeat value st)
  | CallRead => snd (read st)
  | CallClose => close st
  end.

Definition calls (cs : list Call) (st : State) : State :=
  fold_left (fun st c => call c st) cs st.

(** The sequence [choose] returns for the answer [result]. *)
Definition select (result : string) (options : list string) : list bool :=
  map_index (fun _ index => (result =? String_ (Z.of_nat index))%string)
            0 options.

(** The object after [choose] has saved the prompt and, where the answer
    asks for it, closed the loop. *)
Definition chosen (result : string) (options : list string)
           (preferences : Preferences) (o : InputLoop) : InputLoop :=
  mkInputLoop
    (buf o)
    (if truthy_bool (lastOptionClose preferences)
        && (result =? String_ (Z.of_nat (List.length options) - 1))%string
     then true else done o)
    (Some (Choose options (nullish (lastOptionClose preferences) false))).

(** The answer [choose] works with: the supplied choice, coerced and
    cleaned, or what [read] resolves with. *)
Definition answer (preferences : Preferences) (st : State) : Failure + string :=
  match choice preferences with
  | Some c => inr (cleanInput (Some (coerceChoice c)))
  | None => fst (read st)
  end.

(** The object after [question] has saved the prompt. *)
Definition asked (text : string) (includeNewline : option bool)
           (o : InputLoop) : InputLoop :=
  mkInputLoop (buf o) (done o)
              (Some (Question text (nullish includeNewline true))).

(** What the underlying read hands over: nothing when the stream is closed,
    else the next chunk as far as the buffer holds it. *)
Definition delivered (st : State) : option string :=
  match stdin st with
  | [] => None
  | chunk :: _ =>
      Some (substring 0 (Nat.min (length chunk) (length (buf (self st)))) chunk)
  end.

(** The state in which [question] obtains its answer. *)
Definition prompted (text : string) (includeNewline : option bool)
           (st : State) : State :=
  set_self (asked text includeNewline)
           (Printer.print text (nullish includeNewline true) st).

(** The state [choose] leaves when it works with the answer [r]. *)
Definition settled (r : string) (options : list string)
           (preferences : Preferences) (st st' : State) : Prop :=
  done (self st')
  = (if truthy_bool (lastOptionClose preferences)
        && (r =? String_ (Z.of_nat (List.length options) - 1))%string
     then true else done (self st))
  /\ history (self st')
     = Some (Choose options (nullish (lastOptionClose preferences) false))
  /\ (choice preferences <> None ->
      buf (self st') = buf (self st) /\ stdin st' = stdin st
      /\ reads st' = reads st).

(** [{ choice }] and [{ lastOptionClose: true, choice }] *)
Definition supplied (c : Value) : Preferences :=
  replay_preferences None (Some c).

Definition supplied_closing (c : Value) : Preferences :=
  replay_preferences (Some true) (Some c).

(** The line [hello], ended by a carriage return and a line feed. *)
Definition hello_line : string := "hello" ++ String CR (String LF "").

(** [{ choice: 0, inlineSpacing: -1 }] *)
Definition negative_spacing : Preferences :=
  mkPreferences (Some (VNumber 0)) None None (Some (-1)%Z) None None None None
                None None None.

(** The string [1] followed by a line feed, and the text [a], a line feed,
    [b]. *)
Definition one_line : string := String "1" (String LF "").

Definition a_newline_b : string := String "a" (String LF (String "b" "")).

(** The spec's words for a supplied value: [question] resolves with the
    coerced value, and performs no read. *)
Definition resolves_with_the_coerced_value (text : string)
           (includeNewline : option bool) (v : Value) (st : State) : Prop :=
  fst (question text includeNewline (Some v) st) = inr (coerceChoice v)
  /\ reads (snd (question text includeNewline (Some v) st)) = reads st.

(** The spec's words for a supplied choice: [choose] performs no read and
    works with the coerced choice as the answer. *)
Definition answers_with_the_coerced_choice (options : list string)
           (c : Value) (st : State) : Prop :=
  fst (choose options (supplied c) st) = inr (select (coerceChoice c) options)
  /\ reads (snd (choose options (supplied c) st)) = reads st.

(** The state after [choose(['A', 'B'], { choice: 0 })] on a new object,
    with one line of input waiting. *)
Definition after_choose : State :=
  snd (choose ["A"; "B"] (supplied (VNumber 0)) (initial [one_line])).

(** How many times a character occurs in a string. *)
Fixpoint count_char (c : ascii) (s : string) : nat :=
  match s with
  | EmptyString => 0
  | String a s' => (if (a =? c)%char then 1 else 0) + count_char c s'
  end.

(** The two brackets [choose] puts around an index, and the label it writes
    for an option. *)
Definition bracket (preferences : Preferences) (side : nat) (default : string)
  : string :=
  match indexStyle preferences with
  | Some style => template (nth_error style side)
  | None => default
  end.

Definition label (preferences : Preferences) (option : string) (index : nat)
  : string :=
  bracket preferences 0 "[" ++ String_ (Z.of_nat index)
  ++ bracket preferences 1 "]" ++ " " ++ option.

(** Preferences that ask for no divider and no padding. *)
Definition no_dividers (preferences : Preferences) : Prop :=
  truthy_bool (dividerTop preferences) = false
  /\ truthy_bool (dividerBottom preferences) = false
  /\ truthy_bool (dividerPadding preferences) = false.

(** Preferences with which the separator cannot be built: no separator
    given, and a number of spaces that is negative or more than the longest
    string holds. *)
Definition count_out_of_range (preferences : Preferences) : Prop :=
  truthy truthy_string (inlineSeparator preferences) = false
  /\ exists n, inlineSpacing preferences = Some n
               /\ (n < 0 \/ String_max_length < n)%Z.


(** The state after a read of the line [hello] on a new object: the line is
    still in the buffer, and [one_line] is waiting. *)
Definition after_hello : State := snd (read (initial [hello_line; one_line])).

(** The line [choose] writes for an option: its label, followed by the
    separator in the inline layout. *)
Definition line (preferences : Preferences) (sep : string) (option : string)
           (index : nat) : string :=
  if truthy_bool (displayInline preferences)
  then label preferences option index ++ sep
  else label preferences option index.

Fixpoint lines_fit (preferences : Preferences) (sep : string) (index : nat)
         (options : list string) : bool :=
  match options with
  | [] => true
  | option :: options' =>
      fits (line preferences sep option index)
      && lines_fit preferences sep (S index) options'
  end.

(** What [choose] does for one option. *)
Definition print_option (preferences : Preferences) (sep : string)
           (option : string) (index : nat) : Promise unit :=
  if truthy_bool (displayInline preferences)
  then text <- template_literal (label preferences option index ++ sep) ;;
       exec (Printer.print text false)
  else text <- template_literal (label preferences option index) ;;
       exec (Printer.print text true).

(** The menu can be written: the separator can be built, and the line of
    each option is no longer than the longest string. *)
Definition rendersb (options : list string) (preferences : Preferences)
  : bool :=
  match separator preferences with
  | inl _ => false
  | inr sep => lines_fit preferences sep 0 options
  end.

Definition renders (options : list string) (preferences : Preferences)
  : Prop :=
  rendersb options preferences = true.

(** A replay whose menu can be written: the last recorded prompt is no
    Choose, or the menu of its options can be written with the preferences of
    the replay. *)
Definition replay_renders (value : option Value) (st : State) : Prop :=
  match history (self st) with
  | Some (Choose options loc) =>
      renders options (replay_preferences (Some loc) value)
  | _ => True
  end.

(** An option three characters short of the longest string, and
    [{ indexStyle: ['', ''] }]: with no bracket the line of the option can
    be written, and with the two default brackets it is one character too
    long. *)
Definition long_option : string :=
  repeat_string "a" (Z.to_nat (String_max_length - 3)).

Definition no_brackets : Preferences :=
  mkPreferences None None None None None (Some [""; ""]) None None None None
                None.


(** [{ indexStyle: [left] }], a style with its second string missing. *)
Definition one_bracket (left : string) : Preferences :=
  mkPreferences None None None None None (Some [left]) None None None None
                None.

(** [read()], awaited [k] times in a row: how each call settled, and the
    state after the last. *)
Fixpoint read_times (k : nat) (st : State) : list (Failure + string) * State :=
  match k with
  | O => ([], st)
  | S k' =>
      let (r, st') := read st in
      let (rs, st'') := read_times k' st' in
      (r :: rs, st'')
  end.

(** A line as typed: a text with no line terminator in it and its
    terminator; it arrives as a chunk of bytes that decode to themselves
    (well-formed UTF-8 that does not start with a byte order mark). *)
Definition chunk_of (line : string * string) : string :=
  fst line ++ snd line.

Definition typed (line : string * string) : Prop :=
  plain (fst line) /\ terminator (snd line) /\ chunk_of line <> ""
  /\ decode (chunk_of line) = chunk_of line.

(** A chunk of 1030 bytes, six more than the buffer holds. *)
Definition long_chunk : string := repeat_string "a" 1030.

(** A text of ASCII characters only. *)
Fixpoint ascii_only (s : string) : bool :=
  match s with
  | EmptyString => true
  | String a s' => (TextDecoder.byte a <=? 0x7F)%Z && ascii_only s'
  end.

(** A line ended by a line feed that holds a carriage return: [a], CR, [b],
    LF. *)
Definition line_holding_a_return : string :=
  String "a" (String CR (String "b" (String LF ""))).

(** The two bytes of the letter e with an acute accent, the three bytes of
    the replacement character, and a chunk of 1025 bytes whose last two are
    that letter: the buffer holds the first of the two only. *)
Definition e_acute : string :=
  String (TextDecoder.ascii_of 0xC3) (String (TextDecoder.ascii_of 0xA9) "").

Definition replacement_character : string :=
  TextDecoder.encode TextDecoder.replacement.

Definition cut_chunk : string := repeat_string "a" 1023 ++ e_acute.

(** [{ choice: 1, lastOptionClose: true, inlineSpacing: -1 }] and
    [{ choice: 0, inlineSpacing: 2 ** 30 }] *)
Definition negative_spacing_closing : Preferences :=
  mkPreferences (Some (VNumber 1)) (Some true) None (Some (-1)%Z) None None
                None None None None None.

Definition huge_spacing : Preferences :=
  mkPreferences (Some (VNumber 0)) None None (Some (2 ^ 30)%Z) None None None
                None None None None.

(** * Proofs *)

(** ** Strings *)

Lemma prefix_empty (s : string) : prefix "" s = true.
Proof. destruct s; reflexivity. Qed.

Lemma replace_char (c a : ascii) (s : string) :
  replace (String c "") "" (String a s)
  = if (a =? c)%char then s else String a (replace (String c "") "" s).
Proof.
  simpl. destruct (ascii_dec c a) as [->|Hne].
  - rewrite prefix_empty, Ascii.eqb_refl. reflexivity.
  - destruct (Ascii.eqb_spec a c) as [->|_]; [contradiction | reflexivity].
Qed.

Lemma replace_absent (c : ascii) (s : string) :
  occurs c s = false -> replace (String c "") "" s = s.
Proof.
  induction s as [|a s IH]; [reflexivity|].
  cbn [occurs]. intros H. apply orb_false_iff in H as [Ha Hs].
  rewrite replace_char, Ha, IH by assumption. reflexivity.
Qed.

Lemma occurs_app (c : ascii) (s t : string) :
  occurs c (s ++ t) = occurs c s || occurs c t.
Proof.
  induction s as [|a s IH]; simpl; [reflexivity|].
  rewrite IH. apply orb_assoc.
Qed.

Lemma replace_app_absent (c : ascii) (s t : string) :
  occurs c s = false ->
  replace (String c "") "" (s ++ t) = s ++ replace (String c "") "" t.
Proof.
  induction s as [|a s IH]; [reflexivity|].
  cbn [occurs]. intros H. apply orb_false_iff in H as [Ha Hs].
  cbn [append]. rewrite replace_char, Ha, IH by assumption. reflexivity.
Qed.

Lemma cleanInput_plain (s : string) : plain s -> cleanInput (Some s) = s.
Proof.
  intros [Hlf Hcr]. unfold cleanInput. cbn [option_map nullish].
  rewrite (replace_absent LF) by assumption. now apply replace_absent.
Qed.

Lemma append_empty_r (s : string) : s ++ "" = s.
Proof. induction s as [|a s IH]; simpl; [|rewrite IH]; reflexivity. Qed.

Lemma cleanInput_line (body t : string) :
  plain body -> terminator t -> cleanInput (Some (body ++ t)) = body.
Proof.
  intros [Hlf Hcr] Ht. unfold cleanInput. cbn [option_map nullish].
  rewrite (replace_app_absent LF) by assumption.
  destruct Ht as [-> | [-> | [-> | ->]]]; cbn -[append];
    rewrite ?(replace_app_absent CR) by assumption; cbn -[append];
    apply append_empty_r || (rewrite append_empty_r; now apply replace_absent).
Qed.

Lemma strip_plain (body : string) :
  plain body -> strip_trailing_terminators body = body.
Proof.
  intros [Hlf Hcr]. induction body as [|a s IH]; [reflexivity|].
  cbn [occurs] in Hlf, Hcr.
  apply orb_false_iff in Hlf as [Ha Hlf].
  apply orb_false_iff in Hcr as [Ha' Hcr].
  cbn [strip_trailing_terminators]. rewrite IH, Ha, Ha' by assumption.
  destruct s; reflexivity.
Qed.

Lemma strip_line (body t : string) :
  plain body -> terminator t -> strip_trailing_terminators (body ++ t) = body.
Proof.
  intros Hb Ht. pose proof (strip_plain body Hb) as Hs.
  destruct Hb as [Hlf Hcr].
  assert (Hz : strip_trailing_terminators t = "")
    by (destruct Ht as [-> | [-> | [-> | ->]]]; reflexivity).
  clear Ht. induction body as [|a s IH]; [exact Hz|].
  cbn [occurs] in Hlf, Hcr.
  apply orb_false_iff in Hlf as [Ha Hlf].
  apply orb_false_iff in Hcr as [Ha' Hcr].
  cbn [append strip_trailing_terminators].
  assert (Hs' : strip_trailing_terminators s = s)
    by (apply strip_plain; split; assumption).
  rewrite IH by assumption. rewrite Ha, Ha'. destruct s; reflexivity.
Qed.

(** ** Numbers *)

Lemma to_int_proper (n : Z) : Z.to_int n <> Pos Nil /\ Z.to_int n <> Neg Nil.
Proof.
  destruct n as [|p|p]; cbn; split; try discriminate;
    intros [= H]; exact (Unsigned.to_uint_nonnil p H).
Qed.

Lemma String_inj (a b : Z) : String_ a = String_ b -> a = b.
Proof.
  unfold String_. intros H. apply DecimalZ.to_int_inj.
  destruct (to_int_proper a) as [Ha Ha'], (to_int_proper b) as [Hb Hb'].
  pose proof (NilZero.isi _ Ha Ha') as Ia.
  pose proof (NilZero.isi _ Hb Hb') as Ib.
  rewrite H in Ia. congruence.
Qed.

Lemma String_eqb (a b : Z) : (String_ a =? String_ b)%string = (a =? b)%Z.
Proof.
  destruct (String.eqb_spec (String_ a) (String_ b)) as [H|H].
  - apply String_inj in H. subst. symmetry. apply Z.eqb_refl.
  - symmetry. apply Z.eqb_neq. intros ->. now apply H.
Qed.

Lemma digits_plain (c : ascii) (d : uint) :
  c = LF \/ c = CR -> occurs c (NilEmpty.string_of_uint d) = false.
Proof.
  intros [-> | ->]; induction d; cbn; assumption || reflexivity.
Qed.

Lemma String_plain (n : Z) : plain (String_ n).
Proof.
  assert (H : forall c d, c = LF \/ c = CR ->
                          occurs c (NilZero.string_of_uint d) = false).
  { intros c d Hc. destruct d; try (now apply digits_plain).
    destruct Hc as [-> | ->]; reflexivity. }
  unfold plain, String_.
  destruct (Z.to_int n) as [d|d]; cbn [NilZero.string_of_int occurs];
    rewrite !H by auto; split; reflexivity.
Qed.

Lemma cleanInput_String (n : Z) : cleanInput (Some (String_ n)) = String_ n.
Proof. apply cleanInput_plain, String_plain. Qed.

Lemma cleanInput_index (i : nat) (c : Value) :
  is_index i c -> cleanInput (Some (coerceChoice c)) = String_ (Z.of_nat i).
Proof. intros [-> | ->]; apply cleanInput_String. Qed.

(** ** The returned sequence *)

Lemma map_index_length {A B : Type} (f : A -> nat -> B) (k : nat) (l : list A) :
  List.length (map_index f k l) = List.length l.
Proof.
  revert k. induction l as [|x l IH]; intros k; simpl; [|rewrite IH];
    reflexivity.
Qed.

Lemma select_length (r : string) (options : list string) :
  List.length (select r options) = List.length options.
Proof. apply map_index_length. Qed.

Lemma map_index_nth (r : string) (options : list string) (k j : nat) :
  nth j (map_index (fun _ index => (r =? String_ (Z.of_nat index))%string)
                   k options) false
  = ((j <? List.length options)%nat
     && (r =? String_ (Z.of_nat (k + j)))%string)%bool.
Proof.
  revert k j. induction options as [|x l IH]; intros k j.
  - destruct j; reflexivity.
  - destruct j as [|j]; cbn [map_index nth List.length].
    + rewrite Nat.add_0_r. reflexivity.
    + rewrite IH. replace (S k + j) with (k + S j) by lia. reflexivity.
Qed.

Lemma select_nth (r : string) (options : list string) (j : nat) :
  nth j (select r options) false = true
  <-> j < List.length options /\ r = String_ (Z.of_nat j).
Proof.
  unfold select. rewrite map_index_nth, andb_true_iff, Nat.ltb_lt.
  cbn [Nat.add]. now rewrite String.eqb_eq.
Qed.

Lemma select_none (r : string) (options : list string) :
  (forall j, j < List.length options -> r <> String_ (Z.of_nat j)) ->
  select r options = List.repeat false (List.length options).
Proof.
  intros H. apply nth_ext with (d := false) (d' := false).
  - now rewrite select_length, repeat_length.
  - intros j Hj. rewrite select_length in Hj.
    rewrite nth_repeat. apply not_true_is_false. intros Ht.
    apply select_nth in Ht as [_ Ht]. exact (H j Hj Ht).
Qed.

(** ** What the printer leaves alone *)

Lemma printed_refl (st : State) : printed st st.
Proof. repeat split. Qed.

Lemma printed_trans (a b c : State) : printed a b -> printed b c -> printed a c.
Proof.
  unfold printed. intros (H1 & H2 & H3) (H4 & H5 & H6).
  repeat split; congruence.
Qed.

Lemma printed_write (text : string) (st : State) :
  printed st (Printer.write text st).
Proof. repeat split. Qed.

Ltac printer :=
  repeat first
    [ apply printed_refl
    | eapply printed_trans; [| apply printed_write ]
    | eapply printed_trans; [| eassumption ] ].

(** ** [choose], phase by phase *)

Lemma forEach_options (preferences : Preferences) (sep : string)
      (l : list string) :
  forall k st,
  exists st',
    forEach (print_option preferences sep) k l st
    = (if lines_fit preferences sep k l then inr tt else inl RangeError, st')
    /\ printed st st'
    /\ (lines_fit preferences sep k l = true ->
        stdout st'
        = List.app
            (stdout st)
            (map_index
               (fun option index =>
                  if truthy_bool (displayInline preferences)
                  then label preferences option index ++ sep
                  else label preferences option index ++ String LF "")
               k l)).
Proof.
  induction l as [|x l IH]; intros k st.
  - cbn [forEach lines_fit map_index].
    exists st. split; [reflexivity|]. split; [apply printed_refl|].
    intros _. now rewrite app_nil_r.
  - cbn [forEach lines_fit map_index].
    assert (Hstep :
              print_option preferences sep x k st
              = if fits (line preferences sep x k)
                then (inr tt,
                      Printer.write
                        (if truthy_bool (displayInline preferences)
                         then label preferences x k ++ sep
                         else label preferences x k ++ String LF "")
                        st)
                else (inl RangeError, st)).
    { unfold print_option, line, bind, template_literal, exec, resolve,
        reject, Printer.print.
      destruct (truthy_bool (displayInline preferences));
        match goal with |- context [fits ?t] => destruct (fits t) end;
        reflexivity. }
    unfold bind at 1. rewrite Hstep.
    destruct (fits (line preferences sep x k)); cbn [andb].
    + destruct (IH (S k)
                   (Printer.write
                      (if truthy_bool (displayInline preferences)
                       then label preferences x k ++ sep
                       else label preferences x k ++ String LF "")
                      st)) as (st' & He & Hp & Hout).
      exists st'. rewrite He. split; [reflexivity|].
      split; [eapply printed_trans; [apply printed_write | exact Hp]|].
      intros Hf. rewrite (Hout Hf). unfold Printer.write. cbn [stdout].
      now rewrite <- app_assoc.
    + exists st. split; [reflexivity|].
      split; [apply printed_refl | discriminate].
Qed.

Lemma choose_cases (options : list string) (preferences : Preferences)
      (st : State) :
  exists st1,
    choose options preferences st =
      (if rendersb options preferences
       then
         match choice preferences with
         | Some c =>
             let r := cleanInput (Some (coerceChoice c)) in
             (inr (select r options),
              set_self (chosen r options preferences) st1)
         | None =>
             match read st1 with
             | (inr r, st2) =>
                 (inr (select r options),
                  set_self (chosen r options preferences) st2)
             | (inl f, st2) => (inl f, st2)
             end
         end
       else (inl RangeError, st1))
    /\ printed st st1.
Proof.
  unfold choose, rendersb, separator, repeat_count.
  cbv zeta.
  unfold bind, exec, when, resolve, reject.
  unfold template_literal at 1.
  unfold resolve, reject.
  destruct (truthy_bool (dividerTop preferences)),
           (truthy_bool (dividerPadding preferences)),
           (truthy truthy_string (inlineSeparator preferences)),
           (truthy_bool (dividerBottom preferences)).
  all: try destruct (repeat_throws _ _).
  all: try destruct
           (fits (" " ++ template (inlineSeparator preferences) ++ " ")).
  all: cbv beta iota.
  all: try match goal with
           | |- exists st1, (inl RangeError, ?X) = (inl RangeError, st1) /\ _ =>
               exists X; split; [reflexivity|];
               unfold Printer.divider, Printer.newline, Printer.print;
               printer
           end.
  all: match goal with
       | |- context [lines_fit ?p ?sep 0 ?o] =>
           match goal with
           | |- context [forEach ?f 0 o ?X] =>
               destruct (forEach_options p sep o 0 X) as (st' & He & Hp & _);
               change (forEach f 0 o X)
                 with (forEach (print_option p sep) 0 o X);
               rewrite He
           end
       end.
  all: destruct (lines_fit _ _ _ _).
  all: cbv beta iota.
  all: try match goal with
           | |- exists st1, (inl RangeError, ?X) = (inl RangeError, st1) /\ _ =>
               exists X; split; [reflexivity|];
               unfold Printer.divider, Printer.newline, Printer.print in *;
               printer
           end.
  all: destruct (choice preferences) as [c|].
  all: cbv beta iota zeta.
  all: match goal with
       | |- context [read ?X] => exists X
       | |- context [set_self (fun o => set_history _ o) ?X] => exists X
       end.
  all: split; [| unfold Printer.divider, Printer.newline, Printer.print in *;
                 printer ].
  all: try reflexivity.
  all: try (destruct (read _) as [[f|r] st2]; [reflexivity|]).
  all: unfold select, chosen, close, set_self, set_history, set_done,
         History.save; cbv beta iota zeta.
  all: try reflexivity.
  all: match goal with
       | |- context [(truthy_bool (lastOptionClose ?p) && ?b)%bool] =>
           destruct (truthy_bool (lastOptionClose p) && b)%bool
       end; reflexivity.
Qed.

(** ** [read] *)

Lemma substring_0_length (n : nat) (s : string) :
  n <= length s -> length (substring 0 n s) = n.
Proof.
  revert s. induction n as [|n IH]; intros s H.
  - destruct s; reflexivity.
  - destruct s as [|a s]; cbn in *; [lia|]. rewrite IH; [reflexivity|lia].
Qed.

Lemma substring_0_app (a r : string) : substring 0 (length a) (a ++ r) = a.
Proof.
  induction a as [|c a IH]; cbn.
  - destruct r; reflexivity.
  - now rewrite IH.
Qed.

Lemma substring_0_all (s : string) : substring 0 (length s) s = s.
Proof.
  rewrite <- (append_empty_r s) at 2. apply substring_0_app.
Qed.

Lemma subarray_written (n : nat) (chunk b : string) :
  n <= length chunk ->
  subarray n (substring 0 n chunk ++ drop n b) = substring 0 n chunk.
Proof.
  intros H. unfold subarray.
  rewrite <- (substring_0_length n chunk H) at 1. apply substring_0_app.
Qed.

Lemma byte_ascii_of (a : ascii) :
  TextDecoder.ascii_of (TextDecoder.byte a) = a.
Proof.
  unfold TextDecoder.ascii_of, TextDecoder.byte.
  now rewrite N2Z.id, ascii_N_embedding.
Qed.

Lemma code_points_ascii (s : string) :
  ascii_only s = true ->
  TextDecoder.text (TextDecoder.code_points TextDecoder.start s) = s
  /\ TextDecoder.strip_byte_order_mark
       (TextDecoder.code_points TextDecoder.start s)
     = TextDecoder.code_points TextDecoder.start s.
Proof.
  induction s as [|a s IH]; [split; reflexivity|].
  cbn [ascii_only]. intros H. apply andb_true_iff in H as [Ha Hs].
  destruct (IH Hs) as [IHt _].
  cbn [TextDecoder.code_points TextDecoder.start TextDecoder.bytes_needed].
  unfold TextDecoder.lead. rewrite Ha. cbv beta iota zeta.
  cbn [List.app TextDecoder.text TextDecoder.strip_byte_order_mark].
  apply Z.leb_le in Ha. split.
  - rewrite IHt. unfold TextDecoder.encode.
    destruct (Z.ltb_spec (TextDecoder.byte a) 0x80) as [_|Hge]; [|lia].
    now rewrite byte_ascii_of.
  - destruct (Z.eqb_spec (TextDecoder.byte a) TextDecoder.byte_order_mark)
      as [He|_]; [|reflexivity].
    unfold TextDecoder.byte_order_mark in He. lia.
Qed.

Lemma decode_ascii (s : string) : ascii_only s = true -> decode s = s.
Proof.
  intros H. unfold decode, TextDecoder.decode.
  destruct (code_points_ascii s H) as [Ht ->]. exact Ht.
Qed.

Lemma ascii_only_app (a b : string) :
  ascii_only (a ++ b) = ascii_only a && ascii_only b.
Proof.
  induction a as [|x a IH]; [reflexivity|]. cbn. rewrite IH.
  apply andb_assoc.
Qed.

Lemma String_ascii (n : Z) : ascii_only (String_ n) = true.
Proof.
  assert (H : forall d, ascii_only (NilEmpty.string_of_uint d) = true)
    by (induction d; cbn; assumption || reflexivity).
  assert (H' : forall d, ascii_only (NilZero.string_of_uint d) = true)
    by (destruct d; try apply H; reflexivity).
  unfold String_. destruct (Z.to_int n) as [d|d]; cbn; apply H'.
Qed.

Lemma terminator_ascii (t : string) : terminator t -> ascii_only t = true.
Proof. intros [-> | [-> | [-> | ->]]]; reflexivity. Qed.

Lemma read_cases (st : State) :
  read st =
    (match delivered st with
     | Some (String a d) => inr (cleanInput (Some (decode (String a d))))
     | _ => inl EndOfInput
     end,
     snd (Deno_stdin_read st)).
Proof.
  unfold read, delivered, Deno_stdin_read.
  destruct (stdin st) as [|chunk rest]; [reflexivity|].
  cbv zeta. cbn [self buf set_buf fst snd].
  assert (Hn : Nat.min (length chunk) (length (buf (self st))) <= length chunk)
    by apply Nat.le_min_l.
  pose proof (subarray_written _ chunk (buf (self st)) Hn) as Hw.
  pose proof (substring_0_length _ chunk Hn) as Hl.
  destruct (Nat.min (length chunk) (length (buf (self st)))) as [|n].
  - destruct chunk; reflexivity.
  - rewrite Hw. destruct (substring 0 (S n) chunk); [discriminate Hl|].
    reflexivity.
Qed.

Lemma no_data_delivered (st : State) :
  no_data st <-> delivered st = None \/ delivered st = Some "".
Proof.
  unfold no_data, delivered, Deno_stdin_read.
  destruct (stdin st) as [|chunk rest]; cbn [fst].
  - split; intros _; left; reflexivity.
  - assert (Hn : Nat.min (length chunk) (length (buf (self st)))
                 <= length chunk) by apply Nat.le_min_l.
    pose proof (substring_0_length _ chunk Hn) as Hl.
    destruct (Nat.min (length chunk) (length (buf (self st)))) as [|n].
    + split; intros _; right; [|reflexivity].
      destruct chunk; reflexivity.
    + split; intros [H|H]; try discriminate H.
      injection H as H. rewrite H in Hl. discriminate Hl.
Qed.

Lemma read_fails_iff (st : State) :
  (exists f, fst (read st) = inl f) <-> no_data st.
Proof.
  rewrite no_data_delivered, read_cases. cbn [fst].
  destruct (delivered st) as [[|a d]|]; split.
  - intros _. right. reflexivity.
  - intros _. exists EndOfInput. reflexivity.
  - intros [f H]. discriminate H.
  - intros [H|H]; discriminate H.
  - intros _. left. reflexivity.
  - intros _. exists EndOfInput. reflexivity.
Qed.

Lemma read_failure (st : State) (f : Failure) :
  fst (read st) = inl f -> f = EndOfInput /\ no_data st.
Proof.
  intros H. split.
  - rewrite read_cases in H. cbn [fst] in H.
    destruct (delivered st) as [[|a d]|]; congruence.
  - apply read_fails_iff. exists f. exact H.
Qed.

Lemma delivered_same (st st1 : State) :
  buf (self st1) = buf (self st) -> stdin st1 = stdin st ->
  delivered st1 = delivered st.
Proof. unfold delivered. intros -> ->. reflexivity. Qed.

Lemma delivered_printed (st st1 : State) :
  printed st st1 -> delivered st1 = delivered st.
Proof.
  intros (Hs & Hi & _). apply delivered_same; [now rewrite Hs | exact Hi].
Qed.

Lemma read_same (st st1 : State) :
  delivered st1 = delivered st -> fst (read st1) = fst (read st).
Proof. intros H. rewrite !read_cases. cbn [fst]. now rewrite H. Qed.

Lemma no_data_same (st st1 : State) :
  delivered st1 = delivered st -> no_data st1 <-> no_data st.
Proof. intros H. rewrite !no_data_delivered, H. reflexivity. Qed.

Lemma read_no_data_self (st : State) :
  no_data st -> self (snd (read st)) = self st.
Proof.
  rewrite read_cases. unfold no_data, Deno_stdin_read. cbn [snd].
  destruct (stdin st) as [|chunk rest]; cbn [fst snd self]; [reflexivity|].
  intros [H|H]; [discriminate H|]. injection H as H. rewrite H.
  destruct (self st), chunk; reflexivity.
Qed.

Lemma read_stream (st : State) :
  reads (snd (read st)) = S (reads st)
  /\ done (self (snd (read st))) = done (self st)
  /\ history (self (snd (read st))) = history (self st)
  /\ stdout (snd (read st)) = stdout st.
Proof.
  rewrite read_cases. unfold Deno_stdin_read. cbn [snd].
  destruct (stdin st); repeat split.
Qed.

(** ** [question] and [repeat], phase by phase *)

Lemma question_cases (text : string) (includeNewline : option bool)
      (value : option Value) (st : State) :
  question text includeNewline value st =
    match value with
    | Some v =>
        if truthy_value v
        then (inr (cleanInput (Some (coerceChoice v))),
              prompted text includeNewline st)
        else read (prompted text includeNewline st)
    | None => read (prompted text includeNewline st)
    end.
Proof.
  unfold question, prompted, bind, exec, promisify, resolve.
  destruct value as [v|]; [destruct (truthy_value v)|]; reflexivity.
Qed.

Lemma prompted_delivered (text : string) (includeNewline : option bool)
      (st : State) :
  delivered (prompted text includeNewline st) = delivered st.
Proof. reflexivity. Qed.

Lemma repeat_cases (value : option Value) (st : State) :
  repeat value st =
    match history (self st) with
    | Some (Choose options loc) =>
        let (r, st') :=
          choose options (replay_preferences (Some loc) value) st in
        (match r with inl f => inl f | inr l => inr (Chosen l) end, st')
    | Some (Question text includeNewline) =>
        let (r, st') := question text (Some includeNewline) value st in
        (match r with inl f => inl f | inr a => inr (Answered a) end, st')
    | None => (inr Undefined, st)
    end.
Proof.
  unfold repeat, History.action, History.retrieve, bind, resolve.
  destruct (history (self st)) as [[options loc|text nl]|]; try reflexivity.
  - destruct (choose _ _ st) as [[f|l] st']; reflexivity.
  - destruct (question _ _ _ st) as [[f|a] st']; reflexivity.
Qed.

(** ** What [choose] does with the answer *)

Lemma repeat_throws_space (count : Z) :
  repeat_throws " " count = false <-> (0 <= count <= String_max_length)%Z.
Proof.
  unfold repeat_throws. change (js_length " ") with 1%Z.
  rewrite orb_false_iff, Z.ltb_ge, Z.ltb_ge. lia.
Qed.

Lemma max_length_positive : (2 <= String_max_length)%Z.
Proof. unfold String_max_length. lia. Qed.

Lemma renders_separator (options : list string) (preferences : Preferences) :
  renders options preferences <->
  exists sep, separator preferences = inr sep
              /\ lines_fit preferences sep 0 options = true.
Proof.
  unfold renders, rendersb. split.
  - destruct (separator preferences) as [f|sep]; [discriminate|].
    intros H. now exists sep.
  - intros (sep & -> & H). exact H.
Qed.

Lemma count_out_of_range_separator (preferences : Preferences) :
  count_out_of_range preferences -> separator preferences = inl RangeError.
Proof.
  intros [Hs (n & Hn & Hr)]. unfold separator, or_undefined. cbv zeta.
  rewrite Hs, Hn. cbn [truthy]. unfold truthy_number.
  pose proof max_length_positive as Hmax.
  destruct (n =? 0)%Z eqn:H0; [apply Z.eqb_eq in H0; lia|].
  cbn [negb nullish].
  destruct (repeat_throws " " n) eqn:Hc; [reflexivity|].
  apply repeat_throws_space in Hc. lia.
Qed.

Lemma count_out_of_range_not_renders (options : list string)
      (preferences : Preferences) :
  count_out_of_range preferences -> ~ renders options preferences.
Proof.
  intros H Hr. apply count_out_of_range_separator in H.
  apply renders_separator in Hr as (sep & Hs & _). congruence.
Qed.

Lemma choose_resolved (options : list string) (preferences : Preferences)
      (st st' : State) (l : list bool) :
  choose options preferences st = (inr l, st') ->
  exists r, answer preferences st = inr r /\ l = select r options
            /\ settled r options preferences st st'.
Proof.
  destruct (choose_cases options preferences st) as (st1 & -> & Hp).
  pose proof (delivered_printed _ _ Hp) as Hd.
  destruct Hp as (Hs & Hi & Hr).
  destruct (rendersb options preferences); [|discriminate].
  unfold answer, settled. destruct (choice preferences) as [c|].
  - cbv zeta. intros [= <- <-]. eexists. split; [reflexivity|].
    cbn. rewrite Hs. repeat split; assumption.
  - pose proof (read_same _ _ Hd) as Hf.
    pose proof (read_stream st1) as (_ & Hdone & _).
    destruct (read st1) as [[f|r] st2]; [discriminate|].
    intros [= <- <-]. exists r. cbn [fst] in Hf. rewrite <- Hf.
    split; [reflexivity|]. split; [reflexivity|]. cbn in *.
    rewrite Hdone, Hs. split; [reflexivity|]. split; [reflexivity|].
    intros Hc. now contradiction Hc.
Qed.

Lemma choose_resolves (options : list string) (preferences : Preferences)
      (st : State) (r : string) :
  renders options preferences -> answer preferences st = inr r ->
  exists st', choose options preferences st = (inr (select r options), st').
Proof.
  intros Hw Ha.
  destruct (choose_cases options preferences st) as (st1 & -> & Hp).
  rewrite Hw. unfold answer in Ha.
  destruct (choice preferences) as [c|].
  - injection Ha as <-. eexists. reflexivity.
  - rewrite <- (read_same _ _ (delivered_printed _ _ Hp)) in Ha.
    destruct (read st1) as [[f|r'] st2]; cbn [fst] in Ha; [discriminate|].
    injection Ha as <-. eexists. reflexivity.
Qed.

Lemma choose_rejected (options : list string) (preferences : Preferences)
      (st st' : State) (f : Failure) :
  choose options preferences st = (inl f, st') ->
  self st' = self st
  /\ ((f = RangeError /\ ~ renders options preferences
       /\ reads st' = reads st /\ stdin st' = stdin st)
      \/ (f = EndOfInput /\ choice preferences = None /\ no_data st
          /\ reads st' = S (reads st))).
Proof.
  destruct (choose_cases options preferences st) as (st1 & -> & Hp).
  pose proof (delivered_printed _ _ Hp) as Hd.
  destruct Hp as (Hs & Hi & Hr).
  unfold renders.
  destruct (rendersb options preferences).
  - destruct (choice preferences) as [c|]; [discriminate|].
    pose proof (read_failure st1) as Hf.
    pose proof (read_no_data_self st1) as Hself.
    pose proof (read_stream st1) as (Hreads & _).
    destruct (read st1) as [[f1|r] st2]; [|discriminate].
    intros [= <- <-]. cbn [fst snd] in *.
    destruct (Hf f1 eq_refl) as [-> Hn].
    split; [rewrite Hself by assumption; assumption|]. right.
    repeat split; [| congruence].
    now apply (no_data_same st st1 Hd).
  - intros [= <- <-]. split; [assumption|]. left.
    repeat split; [discriminate | assumption | assumption].
Qed.

Lemma choose_not_rendered (options : list string) (preferences : Preferences)
      (st : State) :
  ~ renders options preferences ->
  exists st', choose options preferences st = (inl RangeError, st')
              /\ printed st st'.
Proof.
  intros Hn. destruct (choose_cases options preferences st) as (st1 & -> & Hp).
  unfold renders in Hn. destruct (rendersb options preferences).
  - now contradiction Hn.
  - now exists st1.
Qed.

(** ** Strings too long to build *)

Lemma js_length_app (a b : string) :
  js_length (a ++ b) = (js_length a + js_length b)%Z.
Proof.
  induction a as [|x a IH]; [reflexivity|].
  cbn [append js_length]. rewrite IH. cbv zeta. lia.
Qed.

Lemma js_length_repeat_a (n : nat) :
  js_length (repeat_string "a" n) = Z.of_nat n.
Proof.
  induction n as [|n IH]; [reflexivity|].
  cbn [repeat_string]. rewrite js_length_app, IH.
  change (js_length "a") with 1%Z. lia.
Qed.

Lemma js_length_long_option :
  js_length long_option = (String_max_length - 3)%Z.
Proof.
  unfold long_option. rewrite js_length_repeat_a. apply Z2Nat.id.
  pose proof max_length_positive. unfold String_max_length in *. lia.
Qed.

Lemma renders_without_brackets (long : string) :
  js_length long = (String_max_length - 3)%Z ->
  renders [long] no_brackets.
Proof.
  intros H. unfold renders, rendersb.
  change (separator no_brackets) with (@inr Failure string "  ").
  cbn [lines_fit]. rewrite andb_true_r. unfold line.
  change (truthy_bool (displayInline no_brackets)) with false.
  cbv iota.
  change (label no_brackets long 0) with ("0 " ++ long).
  unfold fits. rewrite js_length_app, H.
  change (js_length "0 ") with 2%Z. apply Z.leb_le. lia.
Qed.

Lemma not_renders_with_brackets (long : string) (value : option Value) :
  js_length long = (String_max_length - 3)%Z ->
  ~ renders [long] (replay_preferences (Some false) value).
Proof.
  intros H. unfold renders, rendersb.
  change (separator (replay_preferences (Some false) value))
    with (@inr Failure string "  ").
  cbn [lines_fit]. rewrite andb_true_r. unfold line.
  change (truthy_bool (displayInline (replay_preferences (Some false) value)))
    with false.
  cbv iota.
  change (label (replay_preferences (Some false) value) long 0)
    with ("[0] " ++ long).
  unfold fits. rewrite js_length_app, H.
  change (js_length "[0] ") with 4%Z. rewrite Z.leb_le. lia.
Qed.

Lemma replay_of_a_long_option (long : string) :
  js_length long = (String_max_length - 3)%Z ->
  fst (choose [long] no_brackets (initial [one_line; one_line]))
  = inr [false]
  /\ history
       (self (snd (choose [long] no_brackets
                          (initial [one_line; one_line]))))
     = Some (Choose [long] false)
  /\ fst (repeat None
                 (snd (choose [long] no_brackets
                              (initial [one_line; one_line]))))
     = inl RangeError
  /\ reads (snd (repeat None
                        (snd (choose [long] no_brackets
                                     (initial [one_line; one_line])))))
     = reads (snd (choose [long] no_brackets
                          (initial [one_line; one_line]))).
Proof.
  intros H.
  destruct (choose_resolves [long] no_brackets
              (initial [one_line; one_line]) "1"
              (renders_without_brackets long H) eq_refl) as [st He].
  rewrite He. cbn [fst snd].
  apply choose_resolved in He as (r & _ & _ & _ & Hh & _).
  change (nullish (lastOptionClose no_brackets) false) with false in Hh.
  split; [reflexivity|]. split; [exact Hh|].
  rewrite repeat_cases, Hh.
  destruct (choose_not_rendered
              [long] (replay_preferences (Some false) None) st
              (not_renders_with_brackets long None H))
    as (st' & -> & _ & _ & Hr).
  split; [reflexivity | exact Hr].
Qed.

(** ** The selection *)

(** C1 (amended). When the menu can be written (the separator can be built:
    the number of spaces is neither negative nor more than the longest string
    holds, or the given separator is not too long; and the line of no option
    is longer than the longest string): for an options list of length N and
    a supplied choice equal to the index [i < N], [choose] resolves to a
    sequence of N booleans that is true at position [i] only.  More generally, whatever the answer
    (supplied or read), [choose] resolves to one boolean per option, true
    exactly at the position whose index, as a string, is the answer, and
    false everywhere when the answer is the string of no index. *)
Theorem choose_selects_the_answer (options : list string)
        (preferences : Preferences) (st : State) :
  renders options preferences ->
  (forall i c,
      choice preferences = Some c -> is_index i c ->
      i < List.length options ->
      exists l st',
        choose options preferences st = (inr l, st')
        /\ List.length l = List.length options
        /\ forall j, j < List.length options ->
                     (nth j l false = true <-> j = i))
  /\ (forall r,
         answer preferences st = inr r ->
         exists l st',
           choose options preferences st = (inr l, st')
           /\ List.length l = List.length options
           /\ (forall j, j < List.length options ->
                         (nth j l false = true <-> r = String_ (Z.of_nat j)))
           /\ ((forall j, j < List.length options ->
                          r <> String_ (Z.of_nat j)) ->
               l = List.repeat false (List.length options))).
Proof.
  intros Hw.
  assert (General : forall r,
             answer preferences st = inr r ->
             exists l st',
               choose options preferences st = (inr l, st')
               /\ List.length l = List.length options
               /\ (forall j, j < List.length options ->
                     (nth j l false = true <-> r = String_ (Z.of_nat j)))
               /\ ((forall j, j < List.length options ->
                      r <> String_ (Z.of_nat j)) ->
                   l = List.repeat false (List.length options))).
  { intros r Ha. destruct (choose_resolves options _ _ _ Hw Ha) as [st' Hc].
    exists (select r options), st'. split; [exact Hc|].
    split; [apply select_length|]. split; [|apply select_none].
    intros j Hj. rewrite select_nth. tauto. }
  split; [|exact General].
  intros i c Hc Hi Hlt.
  destruct (General (String_ (Z.of_nat i))) as (l & st' & He & Hl & Hn & _).
  { unfold answer. rewrite Hc, (cleanInput_index i) by assumption.
    reflexivity. }
  exists l, st'. split; [exact He|]. split; [exact Hl|].
  intros j Hj. rewrite (Hn j Hj). split.
  - intros H. apply String_inj in H. lia.
  - now intros ->.
Qed.

Lemma choose_selects_the_answer_witness :
  renders ["A"; "B"; "C"] (supplied (VNumber 1))
  /\ exists l st',
       choose ["A"; "B"; "C"] (supplied (VNumber 1)) (initial []) = (inr l, st')
       /\ List.length l = 3
       /\ forall j, j < 3 -> (nth j l false = true <-> j = 1).
Proof.
  assert (Hw : renders ["A"; "B"; "C"] (supplied (VNumber 1)))
    by reflexivity.
  split; [exact Hw|].
  apply (proj1 (choose_selects_the_answer ["A"; "B"; "C"]
                  (supplied (VNumber 1)) (initial []) Hw) 1 (VNumber 1)).
  - reflexivity.
  - left. reflexivity.
  - simpl. lia.
Defined.

(** C1, as stated, fails: with the supplied choice 0, an index of the two
    options, and a negative number of spaces, [choose] does not resolve: the
    separator cannot be built. *)
Lemma choose_rejects_a_supplied_index :
  choice negative_spacing = Some (VNumber 0)
  /\ is_index 0 (VNumber 0)
  /\ 0 < List.length ["A"; "B"]
  /\ fst (choose ["A"; "B"] negative_spacing (initial [])) = inl RangeError.
Proof.
  split; [reflexivity|]. split; [left; reflexivity|].
  split; [cbn; lia | reflexivity].
Qed.

(** C10. Whatever the options and the answer, the sequence [choose] returns
    has at most one true entry: two positions that are both true are the same
    position. *)
Theorem choose_selects_at_most_one (options : list string)
        (preferences : Preferences) (st st' : State) (l : list bool) :
  choose options preferences st = (inr l, st') ->
  forall i j, nth i l false = true -> nth j l false = true -> i = j.
Proof.
  intros H i j Hi Hj.
  apply choose_resolved in H as (r & _ & -> & _).
  apply select_nth in Hi as [_ Hi]. apply select_nth in Hj as [_ Hj].
  rewrite Hi in Hj. apply String_inj in Hj. lia.
Qed.

Lemma choose_selects_at_most_one_witness :
  choose ["A"; "B"; "C"] no_preferences (initial [String "1" (String LF "")])
  = (inr [false; true; false],
     snd (choose ["A"; "B"; "C"] no_preferences
                 (initial [String "1" (String LF "")])))
  /\ 1 = 1.
Proof.
  assert (H : choose ["A"; "B"; "C"] no_preferences
                     (initial [String "1" (String LF "")])
              = (inr [false; true; false],
                 snd (choose ["A"; "B"; "C"] no_preferences
                             (initial [String "1" (String LF "")]))))
    by (vm_compute; reflexivity).
  split; [exact H|].
  apply (choose_selects_at_most_one _ _ _ _ _ H 1 1); reflexivity.
Defined.

(** ** The closing option *)

(** C2 (amended). Starting from [done = false], when the menu can be written
    (the separator can be built, and the line of no option is longer than
    the longest string), a supplied choice equal to the index of the last
    option, with [lastOptionClose = true], sets [done] to true; a supplied
    choice equal to any other index leaves [done] false. *)
Theorem choose_closes_on_last_option (options : list string)
        (preferences : Preferences) (st : State) (i : nat) (c : Value) :
  renders options preferences ->
  done (self st) = false ->
  choice preferences = Some c -> is_index i c ->
  (lastOptionClose preferences = Some true -> S i = List.length options ->
   done (self (snd (choose options preferences st))) = true)
  /\ (S i <> List.length options ->
      done (self (snd (choose options preferences st))) = false).
Proof.
  intros Hw Hd Hc Hi.
  assert (Ha : answer preferences st = inr (String_ (Z.of_nat i))).
  { unfold answer. rewrite Hc, (cleanInput_index i) by assumption.
    reflexivity. }
  destruct (choose_resolves options _ _ _ Hw Ha) as [st' He].
  pose proof He as Hr.
  apply choose_resolved in Hr as (r & Ha' & _ & Hdone & _).
  rewrite Ha in Ha'. injection Ha' as <-.
  rewrite He. cbn [snd]. rewrite Hdone, String_eqb, Hd. split.
  - intros -> Hlast. cbn.
    replace (Z.of_nat i =? Z.of_nat (List.length options) - 1)%Z with true;
      [reflexivity|].
    symmetry. apply Z.eqb_eq. lia.
  - intros Hother.
    replace (Z.of_nat i =? Z.of_nat (List.length options) - 1)%Z with false;
      [now rewrite andb_false_r|].
    symmetry. apply Z.eqb_neq. lia.
Qed.

Lemma choose_closes_on_last_option_witness :
  renders ["A"; "Quit"] (supplied_closing (VNumber 1))
  /\ done (self (initial [])) = false
  /\ done (self (snd (choose ["A"; "Quit"] (supplied_closing (VNumber 1))
                             (initial [])))) = true.
Proof.
  assert (Hw : renders ["A"; "Quit"] (supplied_closing (VNumber 1)))
    by reflexivity.
  split; [exact Hw|]. split; [reflexivity|].
  apply (proj1 (choose_closes_on_last_option
                  ["A"; "Quit"] (supplied_closing (VNumber 1)) (initial [])
                  1 (VNumber 1) Hw eq_refl eq_refl (or_introl eq_refl)));
    reflexivity.
Defined.

(** C2, as stated, fails: with a negative number of spaces, the supplied
    index of the last option and [lastOptionClose = true] leave [done]
    false: [choose] fails before it comes to closing. *)
Lemma choose_does_not_close_on_last_option :
  done (self (initial [])) = false
  /\ lastOptionClose negative_spacing_closing = Some true
  /\ choice negative_spacing_closing = Some (VNumber 1)
  /\ is_index 1 (VNumber 1)
  /\ S 1 = List.length ["A"; "Quit"]
  /\ done (self (snd (choose ["A"; "Quit"] negative_spacing_closing
                             (initial [])))) = false.
Proof.
  repeat split. left. reflexivity.
Qed.

(** ** Reading a line *)

Lemma read_line (st : State) (bytes body t : string) :
  delivered st = Some bytes -> bytes <> "" ->
  decode bytes = body ++ t -> plain body -> terminator t ->
  fst (read st) = inr body.
Proof.
  intros Hd Hne He Hb Ht. rewrite read_cases, Hd. cbn [fst].
  destruct bytes as [|a d]; [now contradiction Hne|].
  rewrite He, cleanInput_line by assumption. reflexivity.
Qed.

(** C4 (amended). When the underlying read delivers data, [read] resolves
    with the decoded text of the data, its first line feed and its first
    carriage return removed.  When that text is an input line with no line
    terminator before the one that ends it (a line feed, a carriage return
    and a line feed, a carriage return, or nothing), this is the text with
    its trailing line-terminator characters stripped and the rest unchanged.
    The line [hello] followed by CR LF resolves to [hello]. *)
Theorem read_strips_the_line_terminator (st : State) (bytes : string) :
  delivered st = Some bytes -> bytes <> "" ->
  fst (read st) = inr (cleanInput (Some (decode bytes)))
  /\ forall body t,
       decode bytes = body ++ t -> plain body -> terminator t ->
       fst (read st) = inr (strip_trailing_terminators (body ++ t))
       /\ strip_trailing_terminators (body ++ t) = body.
Proof.
  intros Hd Hne. split.
  - rewrite read_cases, Hd. cbn [fst].
    destruct bytes as [|a d]; [now contradiction Hne | reflexivity].
  - intros body t He Hb Ht. rewrite (strip_line body t Hb Ht).
    split; [|reflexivity]. now apply (read_line st bytes body t).
Qed.

Lemma read_strips_the_line_terminator_witness :
  (delivered (initial [hello_line]) = Some hello_line /\ hello_line <> "")
  /\ (decode hello_line = "hello" ++ String CR (String LF "")
      /\ plain "hello" /\ terminator (String CR (String LF "")))
  /\ fst (read (initial [hello_line])) = inr "hello".
Proof.
  assert (Hd : delivered (initial [hello_line]) = Some hello_line)
    by reflexivity.
  assert (Hne : hello_line <> "") by discriminate.
  assert (He : decode hello_line = "hello" ++ String CR (String LF ""))
    by (vm_compute; reflexivity).
  assert (Hb : plain "hello") by (split; reflexivity).
  assert (Ht : terminator (String CR (String LF "")))
    by (right; left; reflexivity).
  split; [split; assumption|]. split; [repeat split; assumption|].
  exact (proj1 (proj2 (read_strips_the_line_terminator
                         (initial [hello_line]) hello_line Hd Hne)
                      "hello" (String CR (String LF "")) He Hb Ht)).
Defined.

(** C4, as stated, fails: the input line [a], CR, [b] ended by a line feed
    has the line feed as its only trailing terminator, and [read] resolves
    with [ab], not with the rest of the line unchanged. *)
Lemma read_changes_a_line_holding_a_return :
  delivered (initial [line_holding_a_return]) = Some line_holding_a_return
  /\ fst (read (initial [line_holding_a_return])) = inr "ab"
  /\ strip_trailing_terminators (decode line_holding_a_return)
     = String "a" (String CR (String "b" ""))
  /\ fst (read (initial [line_holding_a_return]))
     <> inr (strip_trailing_terminators (decode line_holding_a_return)).
Proof.
  split; [reflexivity|]. split; [vm_compute; reflexivity|].
  split; [vm_compute; reflexivity|].
  vm_compute. discriminate.
Qed.

(** What [cleanInput] does to a text that is not one line: the first line
    feed and the first carriage return go, wherever they are. *)
Example read_two_lines :
  fst (read (initial [String "a" (String LF (String "b" (String LF "")))]))
  = inr (String "a" (String "b" (String LF ""))).
Proof. vm_compute. reflexivity. Qed.

(** ** Failures *)

(** C6 (amended). [read] fails if and only if the underlying read of
    standard input yields no data; when data is available it resolves with
    the cleaned text the data decodes to.  End of input is the only failure
    of [read] and of [question], and of [choose] and of [repeat] when the
    menu they write can be written (the separator can be built, and the line
    of no option is longer than the longest string); each of them then fails
    only where the read it performs yields no data. *)
Theorem end_of_input_is_the_failure :
  (forall st, (exists f, fst (read st) = inl f) <-> no_data st)
  /\ (forall st a d,
         delivered st = Some (String a d) ->
         fst (read st) = inr (cleanInput (Some (decode (String a d)))))
  /\ (forall st f, fst (read st) = inl f -> f = EndOfInput)
  /\ (forall text includeNewline value st f,
         fst (question text includeNewline value st) = inl f ->
         f = EndOfInput /\ no_data st)
  /\ (forall value st f,
         replay_renders value st ->
         fst (repeat value st) = inl f -> f = EndOfInput /\ no_data st)
  /\ (forall options preferences st f,
         renders options preferences ->
         fst (choose options preferences st) = inl f ->
         f = EndOfInput /\ choice preferences = None /\ no_data st).
Proof.
  assert (Q : forall text includeNewline value st f,
             fst (question text includeNewline value st) = inl f ->
             f = EndOfInput /\ no_data st).
  { intros text nl value st f. rewrite question_cases.
    assert (R : fst (read (prompted text nl st)) = inl f ->
                f = EndOfInput /\ no_data st).
    { intros H. apply read_failure in H as [-> H]. split; [reflexivity|].
      now apply (no_data_same st (prompted text nl st)
                              (prompted_delivered text nl st)). }
    destruct value as [v|]; [destruct (truthy_value v)|]; try exact R.
    discriminate. }
  assert (C : forall options preferences st f,
             renders options preferences ->
             fst (choose options preferences st) = inl f ->
             f = EndOfInput /\ choice preferences = None /\ no_data st).
  { intros options preferences st f Hw H.
    destruct (choose options preferences st) as [r st'] eqn:He.
    cbn [fst] in H. subst r.
    apply choose_rejected in He as [_ [(_ & Hn & _)|(-> & Hc & Hn & _)]];
      [contradiction | auto]. }
  split; [exact read_fails_iff|].
  split; [intros st a d H; rewrite read_cases, H; reflexivity|].
  split; [intros st f H; now apply read_failure in H|].
  split; [exact Q|]. split; [|exact C].
  intros value st f. unfold replay_renders. rewrite repeat_cases.
  destruct (history (self st)) as [[options loc|text nl]|];
    [| |discriminate].
  - pose proof (C options (replay_preferences (Some loc) value) st) as Hc.
    destruct (choose _ _ st) as [[f'|l] st']; [|discriminate].
    cbn [fst] in *. intros Hw [= <-].
    destruct (Hc f') as (-> & _ & Hn); auto.
  - pose proof (Q text (Some nl) value st) as Hq.
    destruct (question _ _ _ st) as [[f'|a] st']; [|discriminate].
    cbn [fst] in *. intros _ [= <-]. now apply Hq.
Qed.

(** C6, as stated, fails: with a negative number of spaces and no separator,
    [choose] fails with a range error, which is not the end of the input:
    standard input has data, and is not even read. *)
Lemma choose_fails_without_end_of_input :
  choose ["A"] negative_spacing (initial [one_line])
  = (inl RangeError, Printer.newline (initial [one_line]))
  /\ RangeError <> EndOfInput
  /\ ~ no_data (initial [one_line]).
Proof.
  split; [reflexivity|]. split; [discriminate|].
  intros [H|H]; discriminate H.
Qed.

(** ** The flag *)

Lemma choose_done (options : list string) (preferences : Preferences)
      (st : State) :
  done (self st) = true ->
  done (self (snd (choose options preferences st))) = true.
Proof.
  intros Hd. destruct (choose options preferences st) as [[f|l] st'] eqn:He.
  - apply choose_rejected in He as [Hs _]. cbn [snd]. now rewrite Hs.
  - apply choose_resolved in He as (r & _ & _ & Hdone & _). cbn [snd].
    rewrite Hdone, Hd. now destruct (_ && _)%bool.
Qed.

Lemma read_done (st : State) :
  done (self (snd (read st))) = done (self st).
Proof. apply read_stream. Qed.

Lemma question_done (text : string) (includeNewline : option bool)
      (value : option Value) (st : State) :
  done (self (snd (question text includeNewline value st)))
  = done (self st).
Proof.
  rewrite question_cases.
  destruct value as [v|]; [destruct (truthy_value v)|];
    rewrite ?read_done; reflexivity.
Qed.

Lemma repeat_done (value : option Value) (st : State) :
  done (self st) = true -> done (self (snd (repeat value st))) = true.
Proof.
  intros Hd. rewrite repeat_cases.
  destruct (history (self st)) as [[options loc|text nl]|]; [| |exact Hd].
  - pose proof (choose_done options (replay_preferences (Some loc) value)
                            st Hd) as H.
    now destruct (choose _ _ st).
  - pose proof (question_done text (Some nl) value st) as H.
    destruct (question _ _ _ st). cbn [snd] in *. congruence.
Qed.

Lemma call_done (c : Call) (st : State) :
  done (self st) = true -> done (self (call c st)) = true.
Proof.
  intros Hd. destruct c; cbn [call].
  - now apply choose_done.
  - now rewrite question_done.
  - now apply repeat_done.
  - now rewrite read_done.
  - reflexivity.
Qed.

(** C7. The flag [done] is monotonic: once it is true, no sequence of calls
    of [choose], [question], [repeat], [read] and [close] makes it false
    again.  [close] always sets it to true, and is idempotent: closing twice
    leaves the state closing once leaves. *)
Theorem done_is_monotonic :
  (forall cs st, done (self st) = true -> done (self (calls cs st)) = true)
  /\ (forall st, done (self (close st)) = true)
  /\ (forall st, close (close st) = close st).
Proof.
  split; [|split; reflexivity].
  unfold calls. induction cs as [|c cs IH]; intros st Hd; cbn [fold_left].
  - exact Hd.
  - apply IH, call_done, Hd.
Qed.

Lemma done_is_monotonic_witness :
  done (self (close (initial [one_line]))) = true
  /\ done (self (calls [CallChoose ["A"; "B"] no_preferences;
                        CallQuestion "Q" None None;
                        CallRepeat (Some (VNumber 0)); CallRead; CallClose]
                       (close (initial [one_line])))) = true.
Proof.
  split; [reflexivity|].
  apply (proj1 done_is_monotonic). reflexivity.
Defined.

(** ** A read that fails *)

(** C9. When [choose] performs a read of standard input and the read fails
    for lack of input, [choose] fails with it and leaves the object as it
    was: the history is not overwritten and [done] is not modified. *)
Theorem choose_failed_read_keeps_the_object (options : list string)
        (preferences : Preferences) (st : State) :
  reads (snd (choose options preferences st)) = S (reads st) ->
  no_data st ->
  exists st',
    choose options preferences st = (inl EndOfInput, st')
    /\ self st' = self st
    /\ history (self st') = history (self st)
    /\ done (self st') = done (self st).
Proof.
  intros Hr Hn.
  destruct (choose options preferences st) as [[f|l] st'] eqn:He;
    cbn [snd] in Hr.
  - exists st'. apply choose_rejected in He
      as [Hs [(_ & _ & Hsame & _)|(-> & _)]]; [lia|].
    rewrite Hs. repeat split.
  - exfalso. apply choose_resolved in He as (r & Ha & _ & _ & _ & Hsame).
    unfold answer in Ha. destruct (choice preferences) as [c|].
    + destruct Hsame as (_ & _ & Hsame); [discriminate | lia].
    + apply read_fails_iff in Hn as [f Hf]. congruence.
Qed.

Lemma choose_failed_read_keeps_the_object_witness :
  (reads (snd (choose ["A"; "B"] no_preferences (initial [])))
   = S (reads (initial []))
   /\ no_data (initial []))
  /\ exists st',
       choose ["A"; "B"] no_preferences (initial []) = (inl EndOfInput, st')
       /\ self st' = self (initial [])
       /\ history (self st') = history (self (initial []))
       /\ done (self st') = done (self (initial [])).
Proof.
  assert (Hr : reads (snd (choose ["A"; "B"] no_preferences (initial [])))
               = S (reads (initial []))) by reflexivity.
  assert (Hn : no_data (initial [])) by (left; reflexivity).
  split; [split; assumption|].
  exact (choose_failed_read_keeps_the_object
           ["A"; "B"] no_preferences (initial []) Hr Hn).
Defined.

(** ** A supplied answer *)

Lemma choose_reads (options : list string) (preferences : Preferences)
      (st : State) :
  renders options preferences -> choice preferences = None ->
  reads (snd (choose options preferences st)) = S (reads st).
Proof.
  intros Hw Hc.
  destruct (choose_cases options preferences st) as (st1 & -> & _ & _ & Hr).
  rewrite Hw, Hc. pose proof (read_stream st1) as (Hreads & _).
  destruct (read st1) as [[f|r] st2]; cbn [snd] in *; cbn; congruence.
Qed.

Lemma choose_supplied_stream (options : list string)
      (preferences : Preferences) (st : State) (c : Value) :
  choice preferences = Some c ->
  stdin (snd (choose options preferences st)) = stdin st
  /\ reads (snd (choose options preferences st)) = reads st.
Proof.
  intros Hc. destruct (choose options preferences st) as [[f|l] st'] eqn:He.
  - apply choose_rejected in He
      as [_ [(_ & _ & Hr & Hi)|(_ & Hnone & _)]]; [auto | congruence].
  - apply choose_resolved in He as (r & _ & _ & _ & _ & Hsame).
    destruct Hsame as (_ & Hi & Hr); [congruence | auto].
Qed.

(** C8 (amended). When [preferences.choice] is defined (the number 0 and the
    empty string included), [choose] performs no read of standard input and
    leaves the stream as it is; the answer it works with is the choice
    coerced to a string and then cleaned by [cleanInput], which is the
    coerced choice itself for a number and for a string with no line
    terminator in it; with it [choose] resolves when the menu can be written
    (the separator can be built, and the line of no option is longer than
    the longest string).  When the choice is undefined and the menu can be
    written, [choose] calls [read]. *)
Theorem choose_with_a_supplied_choice (options : list string)
        (preferences : Preferences) (st : State) :
  (forall c,
      choice preferences = Some c ->
      stdin (snd (choose options preferences st)) = stdin st
      /\ reads (snd (choose options preferences st)) = reads st
      /\ answer preferences st = inr (cleanInput (Some (coerceChoice c)))
      /\ (forall l st',
             choose options preferences st = (inr l, st') ->
             l = select (cleanInput (Some (coerceChoice c))) options
             /\ settled (cleanInput (Some (coerceChoice c))) options
                        preferences st st')
      /\ (renders options preferences ->
          fst (choose options preferences st)
          = inr (select (cleanInput (Some (coerceChoice c))) options))
      /\ (plain (coerceChoice c) ->
          cleanInput (Some (coerceChoice c)) = coerceChoice c)
      /\ (forall n, c = VNumber n -> plain (coerceChoice c)))
  /\ (choice preferences = None -> renders options preferences ->
      reads (snd (choose options preferences st)) = S (reads st)).
Proof.
  split; [|intros Hc Hw; now apply choose_reads].
  intros c Hc.
  assert (Ha : answer preferences st = inr (cleanInput (Some (coerceChoice c))))
    by (unfold answer; now rewrite Hc).
  destruct (choose_supplied_stream options preferences st c Hc) as [Hi Hr].
  repeat (split; [assumption|]).
  split; [|split; [|split]].
  - intros l st' He. apply choose_resolved in He as (r & Ha' & -> & Hs).
    rewrite Ha in Ha'. injection Ha' as <-. split; [reflexivity | exact Hs].
  - intros Hw. destruct (choose_resolves options _ _ _ Hw Ha) as [st' ->].
    reflexivity.
  - apply cleanInput_plain.
  - intros n ->. apply String_plain.
Qed.

Lemma choose_with_a_supplied_choice_witness :
  stdin (snd (choose ["A"; "B"] (supplied (VNumber 0)) (initial [one_line])))
  = [one_line]
  /\ reads (snd (choose ["A"; "B"] (supplied (VNumber 0))
                        (initial [one_line]))) = 0
  /\ fst (choose ["A"; "B"] (supplied (VString "")) (initial [one_line]))
     = inr [false; false].
Proof.
  pose proof (proj1 (choose_with_a_supplied_choice
                       ["A"; "B"] (supplied (VNumber 0)) (initial [one_line]))
                    (VNumber 0) eq_refl) as (Hi & Hr & _).
  pose proof (proj1 (choose_with_a_supplied_choice
                       ["A"; "B"] (supplied (VString "")) (initial [one_line]))
                    (VString "") eq_refl) as (_ & _ & _ & _ & He & _).
  split; [exact Hi|]. split; [exact Hr|].
  apply He. reflexivity.
Defined.

(** C8, as stated, fails: the supplied choice [1] followed by a line feed is
    a string already, which is the string of no index; [choose] works with
    the cleaned string [1] and selects the second option. *)
Lemma choose_cleans_the_supplied_choice :
  fst (choose ["A"; "B"] (supplied (VString one_line)) (initial []))
  = inr [false; true]
  /\ select (coerceChoice (VString one_line)) ["A"; "B"] = [false; false]
  /\ ~ answers_with_the_coerced_choice ["A"; "B"] (VString one_line)
       (initial []).
Proof.
  split; [reflexivity|]. split; [reflexivity|].
  intros [H _]. discriminate H.
Qed.

(** C3 (amended). For a supplied value that is truthy (a string that is not
    empty, a number that is not 0), [question] resolves with the value
    coerced to a string and cleaned by [cleanInput], and performs no read:
    standard input is left as it is.  When no value is supplied, it resolves
    with the result of [read()]. *)
Theorem question_with_a_supplied_value (text : string)
        (includeNewline : option bool) (st : State) :
  (forall v,
      truthy_value v = true ->
      question text includeNewline (Some v) st
      = (inr (cleanInput (Some (coerceChoice v))),
         prompted text includeNewline st)
      /\ stdin (snd (question text includeNewline (Some v) st)) = stdin st
      /\ reads (snd (question text includeNewline (Some v) st)) = reads st
      /\ (plain (coerceChoice v) ->
          fst (question text includeNewline (Some v) st)
          = inr (coerceChoice v)))
  /\ question text includeNewline None st
     = read (prompted text includeNewline st)
  /\ fst (question text includeNewline None st) = fst (read st)
  /\ reads (snd (question text includeNewline None st)) = S (reads st).
Proof.
  split; [|split; [|split]].
  - intros v Hv. rewrite question_cases, Hv. cbn [fst snd].
    repeat split. intros Hp. now rewrite cleanInput_plain.
  - apply question_cases.
  - rewrite question_cases.
    apply read_same, (prompted_delivered text includeNewline st).
  - rewrite question_cases.
    now destruct (read_stream (prompted text includeNewline st)) as [-> _].
Qed.

Lemma question_with_a_supplied_value_witness :
  truthy_value (VString "x") = true
  /\ question "Q" (Some false) (Some (VString "x")) (initial [one_line])
     = (inr "x", prompted "Q" (Some false) (initial [one_line]))
  /\ stdout (prompted "Q" (Some false) (initial [one_line])) = ["Q"]
  /\ reads (snd (question "Q" (Some false) (Some (VString "x"))
                          (initial [one_line]))) = 0.
Proof.
  pose proof (proj1 (question_with_a_supplied_value
                       "Q" (Some false) (initial [one_line]))
                    (VString "x") eq_refl) as (He & _ & Hr & _).
  split; [reflexivity|]. split; [exact He|]. split; [reflexivity|exact Hr].
Defined.

(** C3, as stated, fails.  A supplied string with a line feed in it is not
    what [question] resolves with: the line feed is cleaned away.  And for
    the supplied number 0, [question] reads standard input and resolves with
    what it read. *)
Lemma question_does_not_resolve_with_the_coerced_value :
  (fst (question "Q" None (Some (VString a_newline_b)) (initial [one_line]))
   = inr "ab"
   /\ ~ resolves_with_the_coerced_value "Q" None (VString a_newline_b)
        (initial [one_line]))
  /\ (fst (question "Q" None (Some (VNumber 0)) (initial [one_line]))
      = inr "1"
      /\ reads (snd (question "Q" None (Some (VNumber 0))
                              (initial [one_line]))) = 1
      /\ ~ resolves_with_the_coerced_value "Q" None (VNumber 0)
           (initial [one_line])).
Proof.
  split; [split|split; [|split]].
  - reflexivity.
  - intros [H _]. discriminate H.
  - vm_compute. reflexivity.
  - vm_compute. reflexivity.
  - intros [_ H]. vm_compute in H. discriminate H.
Qed.

(** What [question] does with a supplied value that is falsy: it reads. *)
Lemma question_reads_for_a_falsy_value (text : string)
      (includeNewline : option bool) (v : Value) (st : State) :
  truthy_value v = false ->
  question text includeNewline (Some v) st
  = question text includeNewline None st.
Proof. intros H. rewrite !question_cases, H. reflexivity. Qed.

(** ** Replaying *)

Lemma question_history (text : string) (includeNewline : option bool)
      (value : option Value) (st : State) :
  history (self (snd (question text includeNewline value st)))
  = Some (Question text (nullish includeNewline true)).
Proof.
  rewrite question_cases.
  destruct value as [v|]; [destruct (truthy_value v)|]; try reflexivity;
    now destruct (read_stream (prompted text includeNewline st))
      as (_ & _ & -> & _).
Qed.

(** C5 (amended). [repeat(value)] re-invokes [choose] with the recorded
    options and closing flag, and [value] as the choice, when the last
    recorded prompt is a Choose; re-invokes [question] with the recorded text
    and newline flag, and [value] as the value, when it is a Question; and
    returns nothing, changing nothing, when no prompt was recorded.  The
    record is the one the last [choose] or [question] left.  With no value
    given, the replay performs an interactive read, when the menu of a
    replayed Choose can be written with the default brackets. *)
Theorem repeat_replays_the_last_prompt (value : option Value) (st : State) :
  (forall options loc,
      history (self st) = Some (Choose options loc) ->
      repeat value st
      = (l <- choose options (replay_preferences (Some loc) value) ;;
         resolve (Chosen l)) st)
  /\ (forall text includeNewline,
         history (self st) = Some (Question text includeNewline) ->
         repeat value st
         = (a <- question text (Some includeNewline) value ;;
            resolve (Answered a)) st)
  /\ (history (self st) = None -> repeat value st = (inr Undefined, st))
  /\ (forall options preferences st0 l,
         choose options preferences st0 = (inr l, st) ->
         history (self st)
         = Some (Choose options
                        (nullish (lastOptionClose preferences) false)))
  /\ (forall text includeNewline v st0 a,
         question text includeNewline v st0 = (inr a, st) ->
         history (self st)
         = Some (Question text (nullish includeNewline true)))
  /\ (value = None -> history (self st) <> None ->
      replay_renders value st ->
      reads (snd (repeat value st)) = S (reads st)).
Proof.
  split; [|split; [|split; [|split; [|split]]]].
  - intros options loc H. unfold repeat, History.action, History.retrieve.
    rewrite H. reflexivity.
  - intros text nl H. unfold repeat, History.action, History.retrieve.
    rewrite H. reflexivity.
  - intros H. unfold repeat, History.action, History.retrieve.
    rewrite H. reflexivity.
  - intros options preferences st0 l H.
    now apply choose_resolved in H as (r & _ & _ & _ & H & _).
  - intros text nl v st0 a H.
    pose proof (question_history text nl v st0) as Hh.
    rewrite H in Hh. exact Hh.
  - intros -> Hh. unfold replay_renders. rewrite repeat_cases.
    destruct (history (self st)) as [[options loc|text nl]|];
      [| |now contradiction Hh]; intros Hw.
    + pose proof (choose_reads options (replay_preferences (Some loc) None) st)
        as Hr.
      destruct (choose _ _ st) as [r st']. cbn [snd] in *. apply Hr.
      * exact Hw.
      * reflexivity.
    + rewrite question_cases.
      pose proof (read_stream (prompted text (Some nl) st)) as (Hr & _).
      destruct (read _) as [r st']. cbn [snd] in *. exact Hr.
Qed.

Lemma repeat_replays_the_last_prompt_witness :
  history (self after_choose) = Some (Choose ["A"; "B"] false)
  /\ repeat None after_choose
     = (l <- choose ["A"; "B"] (replay_preferences (Some false) None) ;;
        resolve (Chosen l)) after_choose
  /\ fst (repeat None after_choose) = inr (Chosen [false; true])
  /\ reads (snd (repeat None after_choose)) = S (reads after_choose)
  /\ repeat None (initial [one_line]) = (inr Undefined, initial [one_line]).
Proof.
  assert (Hh : history (self after_choose) = Some (Choose ["A"; "B"] false))
    by reflexivity.
  pose proof (repeat_replays_the_last_prompt None after_choose)
    as (Hc & _ & _ & _ & _ & Hr).
  pose proof (repeat_replays_the_last_prompt None (initial [one_line]))
    as (_ & _ & Hu & _).
  split; [exact Hh|]. split; [exact (Hc _ _ Hh)|].
  split; [vm_compute; reflexivity|].
  split; [apply Hr; [reflexivity | rewrite Hh; discriminate | reflexivity]|].
  apply Hu. reflexivity.
Defined.

(** C5, as stated, fails: a replay with no value given need not come to its
    read.  The option [long_option] is three characters short of the longest
    string; [choose] with no brackets writes it, reads the answer and
    records the prompt.  The replay is a [choose] with the default brackets,
    for which the line of the option is one character too long: [repeat]
    fails with a range error, and reads nothing. *)
Lemma repeat_fails_before_it_reads :
  fst (choose [long_option] no_brackets (initial [one_line; one_line]))
  = inr [false]
  /\ history
       (self (snd (choose [long_option] no_brackets
                          (initial [one_line; one_line]))))
     = Some (Choose [long_option] false)
  /\ fst (repeat None
                 (snd (choose [long_option] no_brackets
                              (initial [one_line; one_line]))))
     = inl RangeError
  /\ reads (snd (repeat None
                        (snd (choose [long_option] no_brackets
                                     (initial [one_line; one_line])))))
     = reads (snd (choose [long_option] no_brackets
                          (initial [one_line; one_line]))).
Proof. exact (replay_of_a_long_option long_option js_length_long_option). Qed.

(** ** The model at work *)

Example String_of_indices :
  String_ 0 = "0" /\ String_ 12 = "12" /\ String_ (-1) = "-1".
Proof. repeat split. Qed.

Example choose_renders_one_option_per_line :
  stdout (snd (choose ["A"; "B"] (supplied (VNumber 0)) (initial [])))
  = [String LF ""; "[0] A" ++ String LF ""; "[1] B" ++ String LF ""].
Proof. reflexivity. Qed.

Example choose_reads_the_answer :
  choose ["A"; "B"] no_preferences (initial [one_line])
  = (inr [false; true],
     mkState (mkInputLoop (one_line ++ drop 2 new_buf) false
                          (Some (Choose ["A"; "B"] false)))
             []
             [String LF ""; "[0] A" ++ String LF ""; "[1] B" ++ String LF ""]
             1).
Proof. vm_compute. reflexivity. Qed.

Example question_reads_for_the_empty_string :
  question "Q" None (Some (VString "")) (initial [one_line])
  = question "Q" None None (initial [one_line])
  /\ fst (question "Q" None (Some (VString "")) (initial [one_line]))
     = inr "1".
Proof. split; vm_compute; reflexivity. Qed.

(** * Further properties of the code *)

(** ** [cleanInput], character by character *)

Lemma count_char_replace (a c : ascii) (s : string) :
  count_char c (replace (String a "") "" s)
  = if (c =? a)%char then pred (count_char c s) else count_char c s.
Proof.
  induction s as [|x s IH].
  - cbn. now destruct (c =? a)%char.
  - rewrite replace_char. cbn [count_char].
    destruct (Ascii.eqb_spec x a) as [->|Hxa].
    + destruct (Ascii.eqb_spec c a) as [->|Hca].
      * rewrite Ascii.eqb_refl. reflexivity.
      * destruct (Ascii.eqb_spec a c) as [->|_]; [contradiction|reflexivity].
    + cbn [count_char]. rewrite IH.
      destruct (Ascii.eqb_spec c a) as [->|Hca]; [|reflexivity].
      destruct (Ascii.eqb_spec x a) as [|_]; [contradiction|reflexivity].
Qed.

Lemma count_char_occurs (c : ascii) (s : string) :
  count_char c s = 0 <-> occurs c s = false.
Proof.
  induction s as [|a s IH]; cbn; [tauto|].
  destruct (a =? c)%char; cbn; [split; discriminate | exact IH].
Qed.

Lemma cleanInput_count (s : string) (c : ascii) :
  count_char c (cleanInput (Some s))
  = if ((c =? LF) || (c =? CR))%char then pred (count_char c s)
    else count_char c s.
Proof.
  unfold cleanInput. cbn [option_map nullish].
  rewrite !count_char_replace.
  destruct (Ascii.eqb_spec c CR) as [->|Hcr]; [reflexivity|].
  now rewrite orb_false_r.
Qed.

(** X1. [cleanInput] removes one line feed if the text has any, one carriage
    return if it has any, and no other character: the count of every other
    character is kept, whatever the text.  So it gives the text back exactly
    when the text has no line terminator in it; a text with two line feeds
    keeps one. *)
Theorem cleanInput_removes_one_of_each (s : string) :
  (forall c,
      count_char c (cleanInput (Some s))
      = if ((c =? LF) || (c =? CR))%char then pred (count_char c s)
        else count_char c s)
  /\ (cleanInput (Some s) = s <-> plain s)
  /\ (2 <= count_char LF s -> occurs LF (cleanInput (Some s)) = true).
Proof.
  assert (Hlf : count_char LF (cleanInput (Some s)) = pred (count_char LF s))
    by (rewrite cleanInput_count; reflexivity).
  assert (Hcr : count_char CR (cleanInput (Some s)) = pred (count_char CR s))
    by (rewrite cleanInput_count; reflexivity).
  split; [apply cleanInput_count|]. split; [split|].
  - intros H. rewrite H in Hlf, Hcr. split; apply count_char_occurs; lia.
  - apply cleanInput_plain.
  - intros H.
    destruct (occurs LF (cleanInput (Some s))) eqn:Ho; [reflexivity|].
    apply count_char_occurs in Ho. lia.
Qed.

(** ** Which way [choose] settles *)

Lemma String_cons (n : Z) : exists a d, String_ n = String a d.
Proof.
  unfold String_. destruct (Z.to_int n) as [d|d]; [|cbn; eauto].
  destruct d; cbn; eauto.
Qed.

Lemma truthy_bool_true (o : option bool) :
  truthy_bool o = true <-> o = Some true.
Proof.
  destruct o as [[|]|]; cbn; split; congruence.
Qed.



(** ** Answers of every kind *)

(** X3. Whenever [choose] resolves, whether the answer was supplied or read,
    the loop is closed afterwards exactly when it was closed before, or
    [lastOptionClose] is true and the answer is the decimal string of the
    number of options less one.  With no option at all that string is
    [-1]. *)
Theorem choose_closes_exactly (options : list string)
        (preferences : Preferences) (st st' : State) (l : list bool) :
  choose options preferences st = (inr l, st') ->
  exists r,
    answer preferences st = inr r
    /\ (done (self st') = true
        <-> done (self st) = true
            \/ (lastOptionClose preferences = Some true
                /\ r = String_ (Z.of_nat (List.length options) - 1))).
Proof.
  intros H. apply choose_resolved in H as (r & Ha & _ & Hd & _).
  exists r. split; [exact Ha|]. rewrite Hd, <- truthy_bool_true.
  destruct (truthy_bool (lastOptionClose preferences)); cbn [andb].
  - destruct (String.eqb_spec r
                (String_ (Z.of_nat (List.length options) - 1))) as [Hr|Hr].
    + split; auto.
    + split; [auto | intros [Hd'|[_ Hr']]; [exact Hd' | contradiction]].
  - split; [auto | intros [Hd'|[Hf _]]; [exact Hd' | discriminate Hf]].
Qed.

Lemma choose_closes_exactly_witness :
  choose [] (supplied_closing (VNumber (-1))) (initial [])
  = (inr [], snd (choose [] (supplied_closing (VNumber (-1))) (initial [])))
  /\ done (self (snd (choose [] (supplied_closing (VNumber (-1)))
                             (initial [])))) = true.
Proof.
  assert (H : choose [] (supplied_closing (VNumber (-1))) (initial [])
              = (inr [], snd (choose [] (supplied_closing (VNumber (-1)))
                                     (initial []))))
    by reflexivity.
  split; [exact H|].
  destruct (choose_closes_exactly _ _ _ _ _ H) as (r & Ha & Hd).
  apply Hd. right. split; [reflexivity|].
  injection Ha as <-. reflexivity.
Defined.

(** X4. A supplied number that is no index of the list (negative, or not
    below the number of options) is no error: when the menu can be written
    (the separator can be built, and the line of no option is longer than
    the longest string), [choose] resolves, and every entry of the sequence
    is false. *)
Theorem choose_number_out_of_range (options : list string)
        (preferences : Preferences) (st : State) (n : Z) :
  renders options preferences ->
  choice preferences = Some (VNumber n) ->
  (n < 0 \/ Z.of_nat (List.length options) <= n)%Z ->
  fst (choose options preferences st)
  = inr (List.repeat false (List.length options)).
Proof.
  intros Hw Hc Hn.
  assert (Ha : answer preferences st = inr (String_ n)).
  { unfold answer. rewrite Hc. cbn [coerceChoice].
    now rewrite cleanInput_String. }
  destruct (choose_resolves options _ _ _ Hw Ha) as [st' ->]. cbn [fst].
  f_equal. apply select_none. intros j Hj He. apply String_inj in He. lia.
Qed.

Lemma choose_number_out_of_range_witness :
  (renders ["A"; "B"] (supplied (VNumber 2))
   /\ (2 < 0 \/ Z.of_nat (List.length ["A"; "B"]) <= 2)%Z)
  /\ fst (choose ["A"; "B"] (supplied (VNumber 2)) (initial []))
     = inr [false; false].
Proof.
  assert (Hw : renders ["A"; "B"] (supplied (VNumber 2))) by reflexivity.
  assert (Hn : (2 < 0 \/ Z.of_nat (List.length ["A"; "B"]) <= 2)%Z)
    by (right; cbn; lia).
  split; [split; assumption|].
  exact (choose_number_out_of_range ["A"; "B"] (supplied (VNumber 2))
           (initial []) 2 Hw eq_refl Hn).
Defined.

Lemma index_line (i : nat) (t : string) : String_ (Z.of_nat i) ++ t <> "".
Proof.
  destruct (String_cons (Z.of_nat i)) as (a & d & ->). discriminate.
Qed.

Lemma read_index_line (st : State) (i : nat) (t : string) :
  terminator t -> delivered st = Some (String_ (Z.of_nat i) ++ t) ->
  fst (read st) = inr (String_ (Z.of_nat i)).
Proof.
  intros Ht Hd.
  apply (read_line st _ _ t Hd (index_line i t));
    [|apply String_plain|exact Ht].
  apply decode_ascii. rewrite ascii_only_app, String_ascii.
  now apply terminator_ascii.
Qed.

(** X5. With no choice supplied and a menu that can be written (the
    separator can be built, and the line of no option is longer than the
    longest string), when the read delivers the decimal index [i] of an option followed by a line
    terminator, [choose] resolves to the sequence that is true at [i] only,
    records the prompt, and closes the loop exactly when [lastOptionClose]
    is true and [i] is the last index (or the loop was closed already). *)
Theorem choose_reads_the_typed_index (options : list string)
        (preferences : Preferences) (st : State) (i : nat) (t : string) :
  renders options preferences ->
  choice preferences = None ->
  terminator t ->
  delivered st = Some (String_ (Z.of_nat i) ++ t) ->
  i < List.length options ->
  exists l st',
    choose options preferences st = (inr l, st')
    /\ List.length l = List.length options
    /\ (forall j, j < List.length options ->
                  (nth j l false = true <-> j = i))
    /\ history (self st')
       = Some (Choose options (nullish (lastOptionClose preferences) false))
    /\ done (self st')
       = (if truthy_bool (lastOptionClose preferences)
             && (S i =? List.length options)%nat
          then true else done (self st)).
Proof.
  intros Hw Hc Ht Hd Hi.
  assert (Ha : answer preferences st = inr (String_ (Z.of_nat i))).
  { unfold answer. rewrite Hc. now apply (read_index_line st i t). }
  destruct (choose_resolves options _ _ _ Hw Ha) as [st' He].
  exists (select (String_ (Z.of_nat i)) options), st'.
  split; [exact He|]. split; [apply select_length|].
  apply choose_resolved in He as (r & Ha' & _ & Hdone & Hh & _).
  rewrite Ha in Ha'. injection Ha' as <-.
  split; [|split; [exact Hh|]].
  - intros j Hj. rewrite select_nth. split.
    + intros [_ H]. apply String_inj in H. lia.
    + intros ->. split; [assumption | reflexivity].
  - rewrite Hdone, String_eqb.
    replace (Z.of_nat i =? Z.of_nat (List.length options) - 1)%Z
      with (S i =? List.length options)%nat; [reflexivity|].
    destruct (Nat.eqb_spec (S i) (List.length options)) as [H|H]; symmetry.
    + apply Z.eqb_eq. lia.
    + apply Z.eqb_neq. lia.
Qed.

Lemma choose_reads_the_typed_index_witness :
  (renders ["A"; "B"] no_preferences /\ terminator (String LF "")
   /\ delivered (initial [one_line]) = Some (String_ 1 ++ String LF ""))
  /\ exists l st',
       choose ["A"; "B"] no_preferences (initial [one_line]) = (inr l, st')
       /\ List.length l = 2
       /\ (forall j, j < 2 -> (nth j l false = true <-> j = 1))
       /\ history (self st') = Some (Choose ["A"; "B"] false)
       /\ done (self st') = false.
Proof.
  assert (Hw : renders ["A"; "B"] no_preferences) by reflexivity.
  assert (Ht : terminator (String LF "")) by (left; reflexivity).
  assert (Hd : delivered (initial [one_line])
               = Some (String_ (Z.of_nat 1) ++ String LF "")) by reflexivity.
  split; [repeat split; assumption|].
  apply (choose_reads_the_typed_index ["A"; "B"] no_preferences
           (initial [one_line]) 1 (String LF "") Hw eq_refl Ht Hd).
  cbn. lia.
Defined.

(** ** [question] and the record *)

(** X6. [question] records the prompt before it obtains the answer: however
    the call settles, and so also when its read fails at the end of the
    input, the history holds the question afterwards, and a [repeat] that
    follows asks it again.  ([choose] records only once it has obtained the
    answer.) *)
Theorem question_records_before_reading (text : string)
        (includeNewline : option bool) (value : option Value) (st : State) :
  history (self (snd (question text includeNewline value st)))
  = Some (Question text (nullish includeNewline true))
  /\ (forall v,
         repeat v (snd (question text includeNewline value st))
         = (a <- question text (Some (nullish includeNewline true)) v ;;
            resolve (Answered a))
             (snd (question text includeNewline value st)))
  /\ (no_data st -> value = None ->
      fst (question text includeNewline value st) = inl EndOfInput).
Proof.
  pose proof (question_history text includeNewline value st) as Hh.
  split; [exact Hh|]. split.
  - intros v. unfold repeat, History.action, History.retrieve.
    rewrite Hh. reflexivity.
  - intros Hn ->. rewrite question_cases.
    apply (no_data_same st (prompted text includeNewline st)
                        (prompted_delivered text includeNewline st)) in Hn.
    apply read_fails_iff in Hn as [f Hf].
    now destruct (read_failure _ _ Hf) as [-> _].
Qed.

Lemma question_records_before_reading_witness :
  no_data (initial [])
  /\ fst (question "Q" None None (initial [])) = inl EndOfInput
  /\ history (self (snd (question "Q" None None (initial []))))
     = Some (Question "Q" true).
Proof.
  assert (Hn : no_data (initial [])) by (left; reflexivity).
  pose proof (question_records_before_reading "Q" None None (initial []))
    as (Hh & _ & Hf).
  split; [exact Hn|]. split; [exact (Hf Hn eq_refl) | exact Hh].
Defined.

(** X7. When no value is supplied and the read delivers data that decodes
    to a line (a text with no line terminator in it, followed by its
    terminator), [question] performs one read and resolves with the text
    before the terminator. *)
Theorem question_reads_the_typed_line (text : string)
        (includeNewline : option bool) (st : State) (bytes body t : string) :
  delivered st = Some bytes -> bytes <> "" ->
  decode bytes = body ++ t -> plain body -> terminator t ->
  fst (question text includeNewline None st) = inr body
  /\ reads (snd (question text includeNewline None st)) = S (reads st).
Proof.
  intros Hd Hne He Hb Ht. rewrite question_cases. split.
  - apply (read_line _ bytes body t); assumption.
  - now destruct (read_stream (prompted text includeNewline st)) as [-> _].
Qed.

Lemma question_reads_the_typed_line_witness :
  (delivered (initial [hello_line]) = Some hello_line /\ hello_line <> ""
   /\ decode hello_line = "hello" ++ String CR (String LF "")
   /\ plain "hello" /\ terminator (String CR (String LF "")))
  /\ fst (question "Q" None None (initial [hello_line])) = inr "hello"
  /\ reads (snd (question "Q" None None (initial [hello_line]))) = 1.
Proof.
  assert (Hd : delivered (initial [hello_line]) = Some hello_line)
    by reflexivity.
  assert (Hne : hello_line <> "") by discriminate.
  assert (He : decode hello_line = "hello" ++ String CR (String LF ""))
    by (vm_compute; reflexivity).
  assert (Hb : plain "hello") by (split; reflexivity).
  assert (Ht : terminator (String CR (String LF "")))
    by (right; left; reflexivity).
  split; [repeat split; assumption|].
  exact (question_reads_the_typed_line
           "Q" None (initial [hello_line]) hello_line "hello"
           (String CR (String LF "")) Hd Hne He Hb Ht).
Defined.

(** ** [repeat] and the record *)

Lemma choose_history (options : list string) (preferences : Preferences)
      (st : State) :
  history (self (snd (choose options preferences st))) = history (self st)
  \/ history (self (snd (choose options preferences st)))
     = Some (Choose options (nullish (lastOptionClose preferences) false)).
Proof.
  destruct (choose options preferences st) as [[f|l] st'] eqn:He.
  - apply choose_rejected in He as [Hs _]. left. cbn [snd]. now rewrite Hs.
  - apply choose_resolved in He as (r & _ & _ & _ & Hh & _). right. exact Hh.
Qed.

Lemma repeat_history (value : option Value) (st : State) :
  history (self (snd (repeat value st))) = history (self st).
Proof.
  rewrite repeat_cases.
  destruct (history (self st)) as [[options loc|text nl]|] eqn:Hh;
    [| |exact Hh].
  - pose proof (choose_history options (replay_preferences (Some loc) value)
                               st) as H.
    destruct (choose _ _ st) as [r st']. cbn [snd] in *.
    destruct H as [H|H]; rewrite H; [exact Hh | reflexivity].
  - pose proof (question_history text (Some nl) value st) as H.
    destruct (question _ _ _ st) as [r st']. cbn [snd] in *.
    rewrite H. reflexivity.
Qed.

(** X8. [repeat] never changes the recorded prompt: whatever the values, and
    however each replay settles, after any number of [repeat] calls the
    history is the history before the first, so a prompt can be repeated any
    number of times. *)
Theorem repeat_keeps_the_record (values : list (option Value)) (st : State) :
  history (self (calls (map CallRepeat values) st)) = history (self st).
Proof.
  revert st. unfold calls.
  induction values as [|v values IH]; intros st; cbn [map fold_left call].
  - reflexivity.
  - rewrite IH. apply repeat_history.
Qed.

(** ** What a call can change *)

Lemma choose_done_kept (options : list string) (preferences : Preferences)
      (st : State) :
  lastOptionClose preferences <> Some true ->
  done (self (snd (choose options preferences st))) = done (self st).
Proof.
  intros Hl. rewrite <- truthy_bool_true in Hl.
  apply not_true_is_false in Hl.
  destruct (choose options preferences st) as [[f|l] st'] eqn:He.
  - apply choose_rejected in He as [Hs _]. cbn [snd]. now rewrite Hs.
  - apply choose_resolved in He as (r & _ & _ & Hd & _). cbn [snd].
    now rewrite Hd, Hl.
Qed.

(** X9. Only closing changes [done]: a call after which [done] differs from
    what it was is [close], a [choose] whose [lastOptionClose] is true, or a
    [repeat] of a recorded Choose prompt whose closing flag is true.
    [question] and [read] never change it. *)
Theorem done_changes_only_by_closing (c : Call) (st : State) :
  done (self (call c st)) <> done (self st) ->
  c = CallClose
  \/ (exists options preferences,
         c = CallChoose options preferences
         /\ lastOptionClose preferences = Some true)
  \/ (exists value options,
         c = CallRepeat value
         /\ history (self st) = Some (Choose options true)).
Proof.
  destruct c as [options preferences|text nl value|value| |]; cbn [call].
  - intros H. right. left. exists options, preferences. split; [reflexivity|].
    destruct (lastOptionClose preferences) as [[|]|] eqn:Hl;
      [reflexivity| |]; exfalso; apply H, choose_done_kept;
      rewrite Hl; discriminate.
  - intros H. exfalso. apply H, question_done.
  - intros H. right. right. exists value. rewrite repeat_cases in H.
    destruct (history (self st)) as [[options [|]|text nl]|];
      [now exists options| | |].
    + exfalso. apply H.
      pose proof (choose_done_kept
                    options (replay_preferences (Some false) value) st) as Hk.
      destruct (choose _ _ st). apply Hk. discriminate.
    + exfalso. apply H.
      pose proof (question_done text (Some nl) value st) as Hk.
      now destruct (question _ _ _ st).
    + now contradiction H.
  - intros H. exfalso. apply H, read_done.
  - intros _. left. reflexivity.
Qed.

Lemma done_changes_only_by_closing_witness :
  done (self (call (CallChoose ["A"; "Quit"] (supplied_closing (VNumber 1)))
                   (initial [])))
  <> done (self (initial []))
  /\ (CallChoose ["A"; "Quit"] (supplied_closing (VNumber 1)) = CallClose
      \/ (exists options preferences,
             CallChoose ["A"; "Quit"] (supplied_closing (VNumber 1))
             = CallChoose options preferences
             /\ lastOptionClose preferences = Some true)
      \/ (exists value options,
             CallChoose ["A"; "Quit"] (supplied_closing (VNumber 1))
             = CallRepeat value
             /\ history (self (initial [])) = Some (Choose options true))).
Proof.
  assert (H : done (self (call (CallChoose ["A"; "Quit"]
                                           (supplied_closing (VNumber 1)))
                               (initial [])))
              <> done (self (initial []))) by discriminate.
  split; [exact H|].
  exact (done_changes_only_by_closing _ _ H).
Defined.

Lemma choose_reads_at_most (options : list string) (preferences : Preferences)
      (st : State) :
  reads (snd (choose options preferences st)) = reads st
  \/ reads (snd (choose options preferences st)) = S (reads st).
Proof.
  destruct (choose_cases options preferences st) as (st1 & -> & _ & _ & Hr).
  destruct (rendersb options preferences); [|left; exact Hr].
  destruct (choice preferences) as [c|]; [left; exact Hr|].
  pose proof (read_stream st1) as (Hreads & _).
  destruct (read st1) as [[f|r] st2]; right; cbn [snd] in *; cbn; congruence.
Qed.

Lemma question_reads_at_most (text : string) (includeNewline : option bool)
      (value : option Value) (st : State) :
  reads (snd (question text includeNewline value st)) = reads st
  \/ reads (snd (question text includeNewline value st)) = S (reads st).
Proof.
  rewrite question_cases.
  pose proof (read_stream (prompted text includeNewline st)) as (Hr & _).
  destruct value as [v|]; [destruct (truthy_value v)|];
    [left; reflexivity | right; exact Hr | right; exact Hr].
Qed.

Lemma call_reads_at_most (c : Call) (st : State) :
  reads st <= reads (call c st) <= S (reads st).
Proof.
  assert (E : forall n, n = reads st \/ n = S (reads st) ->
                        reads st <= n <= S (reads st))
    by (intros n [->| ->]; lia).
  destruct c as [options preferences|text nl value|value| |]; cbn [call].
  - apply E, choose_reads_at_most.
  - apply E, question_reads_at_most.
  - rewrite repeat_cases.
    destruct (history (self st)) as [[options loc|text nl]|].
    + pose proof (choose_reads_at_most
                    options (replay_preferences (Some loc) value) st) as H.
      destruct (choose _ _ st). apply E, H.
    + pose proof (question_reads_at_most text (Some nl) value st) as H.
      destruct (question _ _ _ st). apply E, H.
    + cbn. lia.
  - destruct (read_stream st) as [-> _]. lia.
  - cbn. lia.
Qed.

(** X10. Every call of the interface reads standard input once at most: its
    count of reads grows by nothing or by one; so a sequence of calls makes
    no more reads than it has calls, and never undoes one. *)
Theorem calls_read_once_at_most (cs : list Call) (st : State) :
  reads st <= reads (calls cs st) <= reads st + List.length cs.
Proof.
  revert st. unfold calls.
  induction cs as [|c cs IH]; intros st; cbn [fold_left List.length].
  - lia.
  - pose proof (call_reads_at_most c st). specialize (IH (call c st)). lia.
Qed.

(** ** The shared buffer *)

(** X11. What [read] resolves with depends on the stream and on the size of
    the buffer only, not on the bytes earlier reads left in the buffer: two
    objects with the same pending input and buffers of the same size resolve
    alike, so a short line read after a long one carries none of it. *)
Theorem read_ignores_stale_bytes (st st' : State) :
  stdin st = stdin st' ->
  length (buf (self st)) = length (buf (self st')) ->
  fst (read st) = fst (read st').
Proof.
  intros Hi Hl. apply read_same. unfold delivered. now rewrite Hi, Hl.
Qed.

Lemma read_ignores_stale_bytes_witness :
  (stdin after_hello = stdin (initial [one_line])
   /\ length (buf (self after_hello))
      = length (buf (self (initial [one_line]))))
  /\ buf (self after_hello) <> buf (self (initial [one_line]))
  /\ fst (read after_hello) = fst (read (initial [one_line])).
Proof.
  assert (Hi : stdin after_hello = stdin (initial [one_line])) by reflexivity.
  assert (Hl : length (buf (self after_hello))
               = length (buf (self (initial [one_line]))))
    by (vm_compute; reflexivity).
  split; [split; assumption|]. split; [vm_compute; discriminate|].
  exact (read_ignores_stale_bytes _ _ Hi Hl).
Defined.

(** ** What [choose] writes *)

Lemma append_associative (a b c : string) : (a ++ b) ++ c = a ++ b ++ c.
Proof. induction a as [|x a IH]; cbn; [|rewrite IH]; reflexivity. Qed.

Lemma choose_stdout (options : list string) (preferences : Preferences)
      (st : State) (sep : string) :
  no_dividers preferences ->
  separator preferences = inr sep ->
  lines_fit preferences sep 0 options = true ->
  stdout (snd (choose options preferences st))
  = List.app
      (stdout st)
      (String LF ""
       :: map_index
            (fun option index =>
               if truthy_bool (displayInline preferences)
               then label preferences option index ++ sep
               else label preferences option index ++ String LF "")
            0 options).
Proof.
  intros (Htop & Hbottom & Hpad) Hsep Hfit.
  unfold choose, separator, repeat_count in *.
  cbv zeta in *.
  unfold bind, exec, when, resolve, reject.
  unfold template_literal at 1.
  unfold resolve, reject.
  rewrite Htop, Hbottom, Hpad. cbv beta iota.
  destruct (truthy truthy_string (inlineSeparator preferences));
    [destruct (fits (" " ++ template (inlineSeparator preferences) ++ " "));
       [|discriminate Hsep]
    |destruct (repeat_throws _ _); [discriminate Hsep|]];
    match type of Hsep with
    | inr ?e = _ =>
        assert (He : e = sep) by (now injection Hsep); rewrite He; clear He
    end.
  all: cbv beta iota.
  all: match goal with
       | |- context [forEach ?f 0 ?o ?X] =>
           destruct (forEach_options preferences sep o 0 X)
             as (st' & He & _ & Hout);
           change (forEach f 0 o X)
             with (forEach (print_option preferences sep) 0 o X);
           rewrite He, Hfit; specialize (Hout Hfit)
       end.
  all: cbv beta iota.
  all: destruct (choice preferences) as [c|].
  all: try (destruct (truthy_bool (lastOptionClose preferences) && _)%bool;
            cbn in *; rewrite Hout; now rewrite <- app_assoc).
  all: match goal with
       | |- context [read ?X] =>
           pose proof (read_stream X) as (_ & _ & _ & Hw);
           destruct (read X) as [[f|r] st2]
       end.
  all: try (destruct (truthy_bool (lastOptionClose preferences) && _)%bool).
  all: cbn in *; rewrite Hw, Hout; now rewrite <- app_assoc.
Qed.

(** X12. Before it obtains the answer, and so also when the read then fails,
    [choose] with no divider, the stacked layout and a menu that can be
    written (the separator can be built, which the code does in the stacked
    layout too, and the line of no option is longer than the longest string)
    writes a line break and then, for each option in order, one line: the index of the option
    between the two strings of [indexStyle] (square brackets when absent), a
    space, and the option.  It writes nothing else, and nothing that was
    written before changes. *)
Theorem choose_writes_one_line_per_option (options : list string)
        (preferences : Preferences) (st : State) :
  no_dividers preferences ->
  renders options preferences ->
  truthy_bool (displayInline preferences) = false ->
  stdout (snd (choose options preferences st))
  = List.app
      (stdout st)
      (String LF ""
       :: map_index
            (fun option index =>
               bracket preferences 0 "[" ++ String_ (Z.of_nat index)
               ++ bracket preferences 1 "]" ++ " " ++ option ++ String LF "")
            0 options).
Proof.
  intros Hd Hw Hi. apply renders_separator in Hw as (sep & Hsep & Hfit).
  rewrite (choose_stdout options preferences st sep Hd Hsep Hfit), Hi.
  do 2 f_equal.
  assert (E : forall (l : list string) k,
             map_index (fun option index =>
                          label preferences option index ++ String LF "") k l
             = map_index
                 (fun option index =>
                    bracket preferences 0 "[" ++ String_ (Z.of_nat index)
                    ++ bracket preferences 1 "]" ++ " " ++ option
                    ++ String LF "") k l).
  { induction l as [|x l IH]; intros k; cbn [map_index]; [reflexivity|].
    rewrite IH. f_equal. unfold label.
    now rewrite !append_associative. }
  apply E.
Qed.

Lemma choose_writes_one_line_per_option_witness :
  (no_dividers no_preferences /\ renders ["A"; "B"] no_preferences
   /\ truthy_bool (displayInline no_preferences) = false)
  /\ fst (choose ["A"; "B"] no_preferences (initial [])) = inl EndOfInput
  /\ stdout (snd (choose ["A"; "B"] no_preferences (initial [])))
     = [String LF ""; "[0] A" ++ String LF ""; "[1] B" ++ String LF ""].
Proof.
  assert (Hd : no_dividers no_preferences) by (repeat split).
  assert (Hw : renders ["A"; "B"] no_preferences) by reflexivity.
  split; [repeat split; assumption|]. split; [reflexivity|].
  exact (choose_writes_one_line_per_option
           ["A"; "B"] no_preferences (initial []) Hd Hw eq_refl).
Defined.



(** X14. [choose] does not default a missing bracket: with an [indexStyle]
    of one string only, when the menu can be written, each option's line has
    that string before the index and the word [undefined] after it. *)
Theorem choose_writes_undefined_for_a_missing_bracket
        (options : list string) (left : string) (st : State) :
  renders options (one_bracket left) ->
  stdout (snd (choose options (one_bracket left) st))
  = List.app
      (stdout st)
      (String LF ""
       :: map_index
            (fun option index =>
               left ++ String_ (Z.of_nat index) ++ "undefined " ++ option
               ++ String LF "")
            0 options).
Proof.
  intros Hw. apply renders_separator in Hw as (sep & Hsep & Hfit).
  rewrite (choose_stdout options (one_bracket left) st sep);
    [|repeat split|exact Hsep|exact Hfit].
  clear Hsep Hfit.
  do 2 f_equal. cbn [displayInline one_bracket truthy_bool truthy].
  generalize 0.
  induction options as [|x l IH]; intros k; cbn [map_index]; [reflexivity|].
  rewrite IH. f_equal. unfold label, bracket. cbn [indexStyle one_bracket].
  cbn [nth_error template nullish].
  now rewrite !append_associative.
Qed.

Lemma choose_writes_undefined_for_a_missing_bracket_witness :
  renders ["A"; "B"] (one_bracket "(")
  /\ stdout (snd (choose ["A"; "B"] (one_bracket "(") (initial [])))
     = [String LF ""; "(0undefined A" ++ String LF "";
        "(1undefined B" ++ String LF ""].
Proof.
  assert (Hw : renders ["A"; "B"] (one_bracket "(")) by reflexivity.
  split; [exact Hw|].
  exact (choose_writes_undefined_for_a_missing_bracket
           ["A"; "B"] "(" (initial []) Hw).
Defined.

(** ** Reading in a row *)

Lemma append_length (a b : string) : length (a ++ b) = length a + length b.
Proof. induction a as [|x a IH]; cbn; [|rewrite IH]; reflexivity. Qed.

Lemma drop_length (n : nat) (s : string) : length (drop n s) = length s - n.
Proof.
  revert s. induction n as [|n IH]; intros s; cbn.
  - lia.
  - destruct s as [|a s]; cbn; [reflexivity | apply IH].
Qed.

Lemma drop_all (s : string) : drop (length s) s = "".
Proof. induction s as [|a s IH]; [reflexivity | exact IH]. Qed.

Lemma substring_drop (n : nat) (s : string) : substring 0 n s ++ drop n s = s.
Proof.
  revert s. induction n as [|n IH]; intros s.
  - destruct s; reflexivity.
  - destruct s as [|a s]; cbn; [reflexivity | now rewrite IH].
Qed.

Lemma drop_left (n : nat) (s : string) :
  n < length s -> truthy_string (drop n s) = true.
Proof.
  intros H. pose proof (drop_length n s) as Hl.
  destruct (drop n s); [cbn in Hl; lia | reflexivity].
Qed.

Lemma read_buf_length (st : State) :
  length (buf (self (snd (read st)))) = length (buf (self st)).
Proof.
  rewrite read_cases. unfold Deno_stdin_read. cbn [snd].
  destruct (stdin st) as [|chunk rest]; [reflexivity|].
  cbn [snd self buf set_buf].
  rewrite append_length, drop_length, substring_0_length; lia.
Qed.

Lemma read_whole_chunk (st : State) (chunk : string) (rest : list string) :
  stdin st = chunk :: rest ->
  length chunk <= length (buf (self st)) ->
  delivered st = Some chunk /\ stdin (snd (read st)) = rest.
Proof.
  intros Hi Hl. rewrite read_cases. unfold delivered, Deno_stdin_read.
  rewrite Hi. cbn [snd stdin]. rewrite Nat.min_l by assumption.
  now rewrite substring_0_all, drop_all.
Qed.

(** X15. Lines that arrive one per read, each no longer than the buffer and
    of bytes that decode to themselves, are read back in order: as many
    [read] calls as there are lines resolve with the texts of the lines,
    without their terminators, and leave what followed them in the
    stream. *)
Theorem read_times_reads_the_lines (lines : list (string * string))
        (rest : list string) (st : State) :
  Forall typed lines ->
  Forall (fun line => length (chunk_of line) <= length (buf (self st))) lines ->
  stdin st = List.app (map chunk_of lines) rest ->
  fst (read_times (List.length lines) st)
  = map (fun line => inr (fst line)) lines
  /\ stdin (snd (read_times (List.length lines) st)) = rest.
Proof.
  revert st. induction lines as [|[body t] lines IH]; intros st Ht Hl Hi.
  - split; [reflexivity | exact Hi].
  - cbn [List.length read_times map].
    apply Forall_cons_iff in Ht as [(Hb & Hterm & Hne & He) Ht].
    apply Forall_cons_iff in Hl as [Hfit Hl].
    cbn [map List.app] in Hi. unfold chunk_of in Hfit, Hne, He.
    cbn [fst snd] in *.
    destruct (read_whole_chunk st _ _ Hi Hfit) as [Hd Hrest].
    pose proof (read_line st _ body t Hd Hne He Hb Hterm) as Hr.
    pose proof (read_buf_length st) as Hbuf.
    destruct (read st) as [r st']. cbn [fst snd] in *. subst r.
    rewrite <- Hbuf in Hl. specialize (IH st' Ht Hl Hrest).
    destruct (read_times (List.length lines) st') as [rs st''].
    cbn [fst snd] in *. destruct IH as [-> ->]. split; reflexivity.
Qed.

Lemma read_times_reads_the_lines_witness :
  (Forall typed [("hello", String CR (String LF "")); ("1", String LF "")]
   /\ Forall (fun line =>
                length (chunk_of line)
                <= length (buf (self (initial [hello_line; one_line]))))
             [("hello", String CR (String LF "")); ("1", String LF "")])
  /\ fst (read_times 2 (initial [hello_line; one_line]))
     = [inr "hello"; inr "1"]
  /\ stdin (snd (read_times 2 (initial [hello_line; one_line]))) = [].
Proof.
  assert (Ht : Forall typed [("hello", String CR (String LF ""));
                             ("1", String LF "")]).
  { apply Forall_cons; [|apply Forall_cons; [|apply Forall_nil]].
    - split; [split; reflexivity|].
      split; [right; left; reflexivity|].
      split; [discriminate | vm_compute; reflexivity].
    - split; [split; reflexivity|].
      split; [left; reflexivity|].
      split; [discriminate | vm_compute; reflexivity]. }
  assert (Hl : Forall (fun line =>
                         length (chunk_of line)
                         <= length (buf (self (initial [hello_line;
                                                        one_line]))))
                      [("hello", String CR (String LF ""));
                       ("1", String LF "")])
    by (repeat constructor; vm_compute; lia).
  split; [split; assumption|].
  exact (read_times_reads_the_lines
           [("hello", String CR (String LF "")); ("1", String LF "")] []
           (initial [hello_line; one_line]) Ht Hl eq_refl).
Defined.

(** X16. A chunk longer than the buffer is not read whole: [read] resolves
    with the cleaned text that as many of its bytes as the buffer holds
    decode to, and the bytes that did not fit stay at the head of the stream:
    none is lost.  When they fit in the buffer, the next [read] resolves
    with the cleaned text they decode to.  (A character whose bytes are cut
    by the end of the buffer is decoded on its own on either side of the
    cut.) *)
Theorem read_splits_a_long_chunk (st : State) (chunk : string)
        (rest : list string) :
  stdin st = chunk :: rest ->
  0 < length (buf (self st)) < length chunk ->
  let n := length (buf (self st)) in
  fst (read st) = inr (cleanInput (Some (decode (substring 0 n chunk))))
  /\ stdin (snd (read st)) = drop n chunk :: rest
  /\ substring 0 n chunk ++ drop n chunk = chunk
  /\ (length chunk <= 2 * n ->
      fst (read (snd (read st)))
      = inr (cleanInput (Some (decode (drop n chunk))))
      /\ stdin (snd (read (snd (read st)))) = rest).
Proof.
  intros Hi [Hpos Hlong] n.
  assert (Hlen : length (substring 0 n chunk) = n)
    by (apply substring_0_length; subst n; lia).
  assert (First :
            fst (read st)
            = inr (cleanInput (Some (decode (substring 0 n chunk))))
            /\ stdin (snd (read st)) = drop n chunk :: rest).
  { rewrite read_cases. unfold delivered, Deno_stdin_read. rewrite Hi.
    cbn [fst snd stdin]. rewrite Nat.min_r by lia. fold n.
    rewrite (drop_left n chunk) by (subst n; lia).
    split; [|reflexivity].
    destruct (substring 0 n chunk); [cbn in Hlen; lia | reflexivity]. }
  destruct First as [Hf Hs].
  split; [exact Hf|]. split; [exact Hs|]. split; [apply substring_drop|].
  intros Hshort.
  pose proof (drop_length n chunk) as Hd.
  assert (Hfit : length (drop n chunk) <= length (buf (self (snd (read st)))))
    by (rewrite read_buf_length; fold n; lia).
  destruct (read_whole_chunk (snd (read st)) _ _ Hs Hfit) as [Hw Hrest].
  split; [|exact Hrest].
  rewrite read_cases, Hw. cbn [fst].
  destruct (drop n chunk); [cbn in Hd; lia | reflexivity].
Qed.

Lemma read_splits_a_long_chunk_witness :
  (stdin (initial [long_chunk]) = [long_chunk]
   /\ 0 < length (buf (self (initial [long_chunk]))) < length long_chunk
   /\ length long_chunk <= 2 * length (buf (self (initial [long_chunk]))))
  /\ stdin (snd (read (initial [long_chunk]))) = ["aaaaaa"]
  /\ fst (read (snd (read (initial [long_chunk])))) = inr "aaaaaa".
Proof.
  assert (Hl : 0 < length (buf (self (initial [long_chunk])))
               < length long_chunk)
    by (split; apply Nat.ltb_lt; vm_compute; reflexivity).
  assert (Hs : length long_chunk
               <= 2 * length (buf (self (initial [long_chunk]))))
    by (apply Nat.leb_le; vm_compute; reflexivity).
  split; [split; [reflexivity | split; [exact Hl | exact Hs]]|].
  pose proof (read_splits_a_long_chunk
                (initial [long_chunk]) long_chunk [] eq_refl Hl)
    as (_ & Hrest & _ & Hnext).
  split; [exact Hrest | exact (proj1 (Hnext Hs))].
Defined.

Example read_cuts_a_character :
  fst (read (initial [cut_chunk]))
  = inr (repeat_string "a" 1023 ++ replacement_character)
  /\ fst (read (snd (read (initial [cut_chunk])))) = inr replacement_character
  /\ decode e_acute = e_acute.
Proof. repeat split; vm_compute; reflexivity. Qed.

Example decode_drops_the_byte_order_mark :
  decode (TextDecoder.encode TextDecoder.byte_order_mark ++ "hi") = "hi"
  /\ decode ("hi" ++ TextDecoder.encode TextDecoder.byte_order_mark)
     = "hi" ++ TextDecoder.encode TextDecoder.byte_order_mark.
Proof. split; vm_compute; reflexivity. Qed.

Example choose_rejects_a_spacing_too_large :
  choose ["A"] huge_spacing (initial [one_line])
  = (inl RangeError, Printer.newline (initial [one_line]))
  /\ ~ renders ["A"] huge_spacing
  /\ count_out_of_range huge_spacing.
Proof.
  assert (H : count_out_of_range huge_spacing).
  { split; [reflexivity|]. exists (2 ^ 30)%Z. split; [reflexivity|].
    right. unfold String_max_length. lia. }
  split; [reflexivity|].
  split; [now apply count_out_of_range_not_renders | exact H].
Qed.
